(** * hatch.cli.terminal: status stack, gated display and style registry

    A shallow embedding of [src/hatch/cli/terminal.py].  Methods that mutate
    their object are state transformers that may raise; the objects of the
    [rich] library (styles, the console renderer, spinner handles) and the
    Python built-ins the module calls are collaborators whose behaviour is an
    interface, not code of this module. *)

From stdpp Require Import base strings list gmap.
From Stdlib Require Import ZArith Lia Ascii.

Local Open Scope string_scope.
Local Open Scope list_scope.
Local Open Scope Z_scope.

(** ** Exceptions and the state-and-exception monad *)

Inductive exn : Type :=
| IndexError
| AttributeError
| KeyError (msg : string)
| ValueError (msg : string)
| StyleSyntaxError (msg : string)
| RendererError (msg : string).

Inductive result (A : Type) : Type :=
| Ok (a : A)
| Raise (e : exn).
Arguments Ok {A} a.
Arguments Raise {A} e.

(** A method body: it runs on the object's state, returns or raises, and
    leaves the (possibly mutated) state behind in both cases. *)
Definition M (S A : Type) : Type := S → result A * S.

Global Instance M_ret S : MRet (M S) := λ A a s, (Ok a, s).
Global Instance M_bind S : MBind (M S) := λ A B f m s,
  match m s with
  | (Ok a, s') => f a s'
  | (Raise e, s') => (Raise e, s')
  end.

Definition raise {S A} (e : exn) : M S A := λ s, (Raise e, s).
Definition get {S} : M S S := λ s, (Ok s, s).
Definition gets {S A} (f : S → A) : M S A := λ s, (Ok (f s), s).
Definition modify {S} (f : S → S) : M S unit := λ s, (Ok tt, f s).

(** [try: body finally: cleanup], for a cleanup that is a plain assignment. *)
Definition try_finally {S A} (body : M S A) (cleanup : S → S) : M S A := λ s,
  let '(r, s') := body s in (r, cleanup s').

(** Run a method of a component object held in a field of the owner. *)
Definition zoom {S T A} (getter : S → T) (setter : T → S → S) (m : M T A) : M S A := λ s,
  let '(r, t') := m (getter s) in (r, setter t' s).

(** ** Python string slices [s[:n]] and [s[n:]] *)

Fixpoint str_take (n : nat) (s : string) : string :=
  match n, s with
  | S n', String c r => String c (str_take n' r)
  | _, _ => ""
  end.

Fixpoint str_drop (n : nat) (s : string) : string :=
  match n, s with
  | S n', String _ r => str_drop n' r
  | _, _ => s
  end.

(** Truth value of a [str]. *)
Definition str_bool (s : string) : bool :=
  match s with
  | EmptyString => false
  | String _ _ => true
  end.

(** ** [rich.style.Style] *)

Class RichStyle : Type := {
  Style : Type;
  (** [Style.parse(definition)]: the style, or the text of the
      [StyleSyntaxError] it raises. *)
  Style_parse : string → Style + string;
  (** [bool(style)]: false for a null style. *)
  Style_bool : Style → bool;
  (** [str(style)] *)
  Style_str : Style → string;
  (** [style.update_link(uri)] *)
  Style_update_link : Style → string → Style;
}.

Section Data.
Context `{RichStyle}.

(** The module holds its styles as [Style | str]. *)
Inductive StyleArg : Type :=
| StyleStr (s : string)
| StyleObj (st : Style).

(** [rich.text.Text(plain, style=...)] *)
Record Text : Type := mkText { plain : string; text_style : StyleArg }.

Inductive Renderable : Type :=
| RStr (s : string)
| RText (t : Text).

Inductive PyVal : Type :=
| PyStr (s : string)
| PyBool (b : bool).

(** One call of [console.print], with the stream the console selects. *)
Record PrintCall : Type := mkPrintCall {
  p_text : Renderable;
  p_style : option StyleArg;
  p_kwargs : gmap string PyVal;
  p_stderr : bool;
}.

(** [rich.status.Status]: a spinner handle; [is_started] is
    [status._live.is_started]. *)
Record Status : Type := mkStatus {
  status_message : Text;
  status_spinner : string;
  is_started : bool;
}.

(** What the console has put on the terminal, in order. *)
Inductive Event : Type :=
| EPrint (call : PrintCall)
| ESpinnerStart (message : Text) (spinner : string)
| ESpinnerStop (message : Text).

(** Calls of the two callables a [BorrowedStatus] is built with. *)
Inductive HookCall : Type :=
| Initializer
| Finalizer.
End Data.

(** ** The renderer, the platform and the built-ins *)

Class Collaborators `{RichStyle} : Type := {
  (** [console.print] raises for this call, with this text. *)
  render_error : PrintCall → option string;
  (** the name is a key of [rich.spinner.SPINNERS] *)
  spinner_known : string → bool;
  (** [str.lower] *)
  str_lower : string → string;
  (** [textwrap.indent(text, prefix)] *)
  indent_text : string → string → string;
  (** [platform.format_file_uri(path)] *)
  format_file_uri : string → string;
  (** what the console detects about its output device when not forced *)
  device_is_terminal : bool;
}.

(** ** [rich.console.Console] *)

Module Console.
Section Defs.
Context `{Collaborators}.

Record t : Type := mk {
  stderr : bool;
  is_terminal : bool;
  events : list Event;
}.

Definition set_stderr (b : bool) (c : t) : t :=
  mk b (is_terminal c) (events c).

Definition emit (e : Event) (c : t) : t :=
  mk (stderr c) (is_terminal c) (events c ++ [e]).

(** [console.print(text, style=style, **kwargs)] *)
Definition print (text : Renderable) (style : option StyleArg)
    (kwargs : gmap string PyVal) : M t unit := λ c,
  let call := mkPrintCall text style kwargs (stderr c) in
  match render_error call with
  | Some msg => (Raise (RendererError msg), c)
  | None => (Ok tt, emit (EPrint call) c)
  end.

(** [console.status(message, spinner=spinner)]: a handle, not yet started. *)
Definition status (message : Text) (spinner : string) : M t Status :=
  if spinner_known spinner then mret (mkStatus message spinner false)
  else raise (KeyError ("no spinner called " +:+ spinner)).

(** [status.start()] *)
Definition start (h : Status) : M t Status :=
  if is_started h then mret h
  else
    modify (emit (ESpinnerStart (status_message h) (status_spinner h)));;
    mret (mkStatus (status_message h) (status_spinner h) true).

(** [status.stop()] *)
Definition stop (h : Status) : M t Status :=
  if is_started h then
    modify (emit (ESpinnerStop (status_message h)));;
    mret (mkStatus (status_message h) (status_spinner h) false)
  else mret h.

(** The printed lines among the events. *)
Definition prints (es : list Event) : list PrintCall :=
  omap (λ e, match e with EPrint call => Some call | _ => None end) es.
End Defs.
End Console.

(** The keyword arguments every plain line is printed with. *)
Definition line_kwargs : gmap string PyVal :=
  <["overflow" := PyStr "ignore"]> (<["no_wrap" := PyBool true]> (<["crop" := PyBool false]> ∅)).

(** ** [class BorrowedStatus] *)

Module BorrowedStatus.
Section Defs.
Context `{Collaborators}.

Record t : Type := mk {
  console : Console.t;
  tty : bool;
  verbosity : Z;
  spinner_style : string;
  waiting_style : StyleArg;
  success_style : StyleArg;
  (** the calls made so far to [initializer] and [finalizer] *)
  hook_calls : list HookCall;
  (** the possibly active current status *)
  status : option Status;
  (** used as a stack to display the current message *)
  messages : list (Text * string);
}.

Definition __init__ (console : Console.t) (tty : bool) (verbosity : Z)
    (spinner_style : string) (waiting_style success_style : StyleArg) : t :=
  mk console tty verbosity spinner_style waiting_style success_style [] None [].

Definition set_console (c : Console.t) (s : t) : t :=
  mk c (tty s) (verbosity s) (spinner_style s) (waiting_style s) (success_style s)
     (hook_calls s) (status s) (messages s).

Definition set_status (h : option Status) (s : t) : t :=
  mk (console s) (tty s) (verbosity s) (spinner_style s) (waiting_style s) (success_style s)
     (hook_calls s) h (messages s).

Definition set_messages (ms : list (Text * string)) (s : t) : t :=
  mk (console s) (tty s) (verbosity s) (spinner_style s) (waiting_style s) (success_style s)
     (hook_calls s) (status s) ms.

Definition call_hook (h : HookCall) (s : t) : t :=
  mk (console s) (tty s) (verbosity s) (spinner_style s) (waiting_style s) (success_style s)
     (hook_calls s ++ [h]) (status s) (messages s).

Definition on_console {A} (m : M Console.t A) : M t A := zoom console set_console m.

(** [self.__active()] *)
Definition __active : M t bool :=
  gets (λ s, match status s with
             | Some h => is_started h
             | None => false
             end).

(** [self.__output(text)] *)
Definition __output (text : Renderable) : M t unit :=
  on_console (modify (Console.set_stderr true));;
  try_finally
    (on_console (Console.print text None line_kwargs))
    (λ s, set_console (Console.set_stderr false (console s)) s).

(** [self.__status.stop()] *)
Definition status_stop : M t unit :=
  s ← get;
  match status s with
  | None => raise AttributeError
  | Some h => h' ← on_console (Console.stop h); modify (set_status (Some h'))
  end.

(** [self.__status = self.__console.status(message, spinner=...)] followed by
    [self.__status.start()] *)
Definition status_start (message : Text) : M t unit :=
  s ← get;
  h ← on_console (Console.status message (spinner_style s));
  modify (set_status (Some h));;
  h' ← on_console (Console.start h);
  modify (set_status (Some h')).

(** [self.__messages[-1]] *)
Definition top_message : M t (Text * string) :=
  s ← get;
  match last (messages s) with
  | Some entry => mret entry
  | None => raise IndexError
  end.

(** [self.__messages.pop()] *)
Definition pop_message : M t (Text * string) :=
  s ← get;
  match last (messages s) with
  | Some entry => modify (set_messages (removelast (messages s)));; mret entry
  | None => raise IndexError
  end.

Definition stop : M t unit :=
  active ← __active;
  s ← get;
  (match status s with
   | Some _ => status_stop
   | None => mret tt
   end);;
  '(old_message, final_text) ← top_message;
  if bool_decide (0 < verbosity s) && active then
    let final_text :=
      if negb (str_bool final_text) then
        let final_text := plain old_message in
        "Finished " +:+ str_lower (str_take 1 final_text) +:+ str_drop 1 final_text
      else final_text in
    __output (RText (mkText final_text (success_style s)))
  else mret tt.

Definition __call__ (message : string) (final_text : string) : M t unit :=
  modify (λ s, set_messages (messages s ++ [(mkText message (waiting_style s), final_text)]) s).

Definition __enter__ : M t unit :=
  s ← get;
  match last (messages s) with
  | None => mret tt
  | Some (message, _) =>
      if negb (tty s) then __output (RText message)
      else
        (match status s with
         | None => modify (call_hook Initializer)
         | Some _ => status_stop
         end);;
        status_start message
  end.

Definition __exit__ : M t unit :=
  '(old_message, final_text) ← pop_message;
  s ← get;
  active ← __active;
  (if bool_decide (0 < verbosity s) && active then
     let final_text :=
       if negb (str_bool final_text) then
         let final_text := plain old_message in
         "Finished " +:+ str_lower (str_take 1 final_text) +:+ str_drop 1 final_text
       else final_text in
     __output (RText (mkText final_text (success_style s)))
   else mret tt);;
  if negb (tty s) then mret tt
  else
    status_stop;;
    s ← get;
    match last (messages s) with
    | None => modify (set_status None);; modify (call_hook Finalizer)
    | Some (message, _) => status_start message
    end.
End Defs.
End BorrowedStatus.

(** ** [class NullStatus] *)

Module NullStatus.
Definition stop {S} : M S unit := mret tt.
Definition __enter__ {S} : M S unit := mret tt.
Definition __exit__ {S} : M S unit := mret tt.
End NullStatus.

(** ** [class Terminal] *)

Module Terminal.
Section Defs.
Context `{Collaborators}.

Record t : Type := mk {
  verbosity : Z;
  interactive : bool;
  console : Console.t;
  (** the attributes [_style_...] of the instance, by name *)
  attrs : gmap string StyleArg;
  (** [self.platform.displaying_status], once this module has assigned it *)
  displaying_status : option bool;
  (** the value cached for the property [status] *)
  status_cache : option BorrowedStatus.t;
}.

(** The console is built with [force_terminal=enable_color]. *)
Definition __init__ (verbosity : Z) (enable_color : option bool) (interactive : bool) : t :=
  mk verbosity interactive (Console.mk false (default device_is_terminal enable_color) [])
     (<["_style_level_success" := StyleStr "bold cyan"]>
      (<["_style_level_error" := StyleStr "bold red"]>
      (<["_style_level_warning" := StyleStr "bold yellow"]>
      (<["_style_level_waiting" := StyleStr "bold magenta"]>
      (<["_style_level_info" := StyleStr "bold"]>
      (<["_style_level_debug" := StyleStr "bold"]>
      (<["_style_spinner" := StyleStr "simpleDotsScrolling"]> ∅)))))))
     None None.

Definition set_console (c : Console.t) (s : t) : t :=
  mk (verbosity s) (interactive s) c (attrs s) (displaying_status s) (status_cache s).

Definition set_attrs (a : gmap string StyleArg) (s : t) : t :=
  mk (verbosity s) (interactive s) (console s) a (displaying_status s) (status_cache s).

Definition on_console {A} (m : M Console.t A) : M t A := zoom console set_console m.

(** [self.<name>] for a style attribute *)
Definition attr (name : string) : M t StyleArg :=
  s ← get;
  match attrs s !! name with
  | Some v => mret v
  | None => raise AttributeError
  end.

(** [setattr(self, name, value)] *)
Definition setattr (name : string) (value : StyleArg) : M t unit :=
  modify (λ s, set_attrs (<[name := value]> (attrs s)) s).

(** Truth value of [getattr(self, name, None)]. *)
Definition default_bool (v : option StyleArg) : bool :=
  match v with
  | None => false
  | Some (StyleStr s) => str_bool s
  | Some (StyleObj st) => Style_bool st
  end.

(** [str(v)], as an f-string formats it. *)
Definition style_arg_str (v : StyleArg) : string :=
  match v with
  | StyleStr s => s
  | StyleObj st => Style_str st
  end.

(** [Style.parse(v)] for a [Style | str]; a [Style] has no [strip]. *)
Definition parse_style_arg (v : StyleArg) : M t Style :=
  match v with
  | StyleStr s =>
      match Style_parse s with
      | inl st => mret st
      | inr e => raise (StyleSyntaxError e)
      end
  | StyleObj _ => raise AttributeError
  end.

(** The body of the loop of [initialize_styles], for one item
    [(option, style)] of the dict. *)
Definition initialize_style (errors : list string) (opt : string) (style : string)
    : M t (list string) :=
  let attribute := "_style_level_" +:+ opt in
  s ← get;
  let default_level := attrs s !! attribute in
  if default_bool default_level then
    match Style_parse style with
    | inl st => setattr attribute (StyleObj st);; mret errors
    | inr e =>
        let errors := errors ++
          ["Invalid style definition for `" +:+ opt +:+ "`, defaulting to `"
             +:+ from_option style_arg_str "None" default_level +:+ "`: " +:+ e] in
        st ← from_option parse_style_arg (raise AttributeError) default_level;
        setattr attribute (StyleObj st);; mret errors
    end
  else
    let attribute := "_style_" +:+ opt in
    setattr attribute (StyleStr style);; mret errors.

Fixpoint initialize_styles_loop (errors : list string) (styles : list (string * string))
    : M t (list string) :=
  match styles with
  | [] => mret errors
  | (opt, style) :: rest =>
      errors ← initialize_style errors opt style;
      initialize_styles_loop errors rest
  end.

(** [styles] is the dict's items, in order. *)
Definition initialize_styles (styles : list (string * string)) : M t (list string) :=
  initialize_styles_loop [] styles.

(** [kwargs.setdefault(key, value)] *)
Definition setdefault (key : string) (value : PyVal) (kwargs : gmap string PyVal)
    : gmap string PyVal :=
  match kwargs !! key with
  | Some _ => kwargs
  | None => <[key := value]> kwargs
  end.

(** Truth value of a [str | None] argument. *)
Definition opt_str_bool (o : option string) : bool :=
  match o with
  | Some s => str_bool s
  | None => false
  end.

(** [style.update_link(...)] for a style argument that may be [None] or a [str]. *)
Definition update_link (style : option StyleArg) (uri : string) : M t (option StyleArg) :=
  match style with
  | Some (StyleObj st) => mret (Some (StyleObj (Style_update_link st uri)))
  | _ => raise AttributeError
  end.

Definition output (text : string) (style : option StyleArg) (stderr : bool)
    (indent link : option string) (kwargs : gmap string PyVal) : M t unit :=
  let kwargs := setdefault "overflow" (PyStr "ignore") kwargs in
  let kwargs := setdefault "no_wrap" (PyBool true) kwargs in
  let kwargs := setdefault "crop" (PyBool false) kwargs in
  let text := if opt_str_bool indent then indent_text text (default "" indent) else text in
  style ← (if opt_str_bool link
           then update_link style (format_file_uri (default "" link))
           else mret style);
  if negb stderr then on_console (Console.print (RStr text) style kwargs)
  else
    on_console (modify (Console.set_stderr true));;
    try_finally
      (on_console (Console.print (RStr text) style kwargs))
      (λ s, set_console (Console.set_stderr false (console s)) s).

(** In the [display] family [kwargs] holds options of [console.print] other
    than the ones the method passes itself. *)
Definition display (text : string) (kwargs : gmap string PyVal) : M t unit :=
  style ← attr "_style_level_info";
  on_console (Console.print (RStr text) (Some style) (line_kwargs ∪ kwargs)).

Definition display_critical (text : string) (kwargs : gmap string PyVal) : M t unit :=
  on_console (modify (Console.set_stderr true));;
  try_finally
    (style ← attr "_style_level_error";
     on_console (Console.print (RStr text) (Some style) (line_kwargs ∪ kwargs)))
    (λ s, set_console (Console.set_stderr false (console s)) s).

Definition display_error (text : string) (stderr : bool) (indent link : option string)
    (kwargs : gmap string PyVal) : M t unit :=
  s ← get;
  if bool_decide (verbosity s < -2) then mret tt
  else
    style ← attr "_style_level_error";
    output text (Some style) stderr indent link kwargs.

Definition display_warning (text : string) (stderr : bool) (indent link : option string)
    (kwargs : gmap string PyVal) : M t unit :=
  s ← get;
  if bool_decide (verbosity s < -1) then mret tt
  else
    style ← attr "_style_level_warning";
    output text (Some style) stderr indent link kwargs.

Definition display_info (text : string) (stderr : bool) (indent link : option string)
    (kwargs : gmap string PyVal) : M t unit :=
  s ← get;
  if bool_decide (verbosity s < 0) then mret tt
  else
    style ← attr "_style_level_info";
    output text (Some style) stderr indent link kwargs.

Definition display_success (text : string) (stderr : bool) (indent link : option string)
    (kwargs : gmap string PyVal) : M t unit :=
  s ← get;
  if bool_decide (verbosity s < 0) then mret tt
  else
    style ← attr "_style_level_success";
    output text (Some style) stderr indent link kwargs.

Definition display_waiting (text : string) (stderr : bool) (indent link : option string)
    (kwargs : gmap string PyVal) : M t unit :=
  s ← get;
  if bool_decide (verbosity s < 0) then mret tt
  else
    style ← attr "_style_level_waiting";
    output text (Some style) stderr indent link kwargs.

Definition debug_level_message : string :=
  "Debug output can only have verbosity levels between 1 and 3 (inclusive)".

Definition display_debug (text : string) (level : Z) (stderr : bool)
    (indent link : option string) (kwargs : gmap string PyVal) : M t unit :=
  s ← get;
  if negb (bool_decide (1 ≤ level) && bool_decide (level ≤ 3)) then
    raise (ValueError debug_level_message)
  else if bool_decide (verbosity s < level) then mret tt
  else
    style ← attr "_style_level_debug";
    output text (Some style) stderr indent link kwargs.

Definition display_mini_header (text : string) (stderr : bool) (indent link : option string)
    : M t unit :=
  s ← get;
  if bool_decide (verbosity s < 0) then mret tt
  else
    display_info "[" stderr indent None {["end" := PyStr ""]};;
    display_success text stderr None link {["end" := PyStr ""]};;
    display_info "]" stderr None None ∅.

Definition display_raw (text : Renderable) (kwargs : gmap string PyVal) : M t unit :=
  on_console (Console.print text None (line_kwargs ∪ kwargs)).

(** The object the property [status] evaluates to: the cached one, on the
    console it shares with the terminal, or a new one. *)
Definition status (s : t) : BorrowedStatus.t :=
  match status_cache s with
  | Some b => BorrowedStatus.set_console (console s) b
  | None =>
      BorrowedStatus.__init__ (console s)
        (interactive s && Console.is_terminal (console s))
        (verbosity s)
        (from_option style_arg_str "" (attrs s !! "_style_spinner"))
        (default (StyleStr "") (attrs s !! "_style_level_waiting"))
        (default (StyleStr "") (attrs s !! "_style_level_success"))
  end.

(** The [initializer] and [finalizer] lambdas given to the status. *)
Definition run_hook (flag : option bool) (h : HookCall) : option bool :=
  match h with
  | Initializer => Some true
  | Finalizer => Some false
  end.

(** Run a method of [self.status]; its console is the terminal's and its
    hooks assign the platform's flag. *)
Definition on_status {A} (m : M BorrowedStatus.t A) : M t A := λ s,
  let b := status s in
  let '(r, b') := m b in
  (r, mk (verbosity s) (interactive s) (BorrowedStatus.console b') (attrs s)
         (foldl run_hook (displaying_status s)
            (drop (length (BorrowedStatus.hook_calls b)) (BorrowedStatus.hook_calls b')))
         (Some b')).

(** [status_if(message, final_text, condition=...)]: pushes on the shared
    status, or hands out a [NullStatus]; the result tells which. *)
Definition status_if (message final_text : string) (condition : bool) : M t bool :=
  if condition then on_status (BorrowedStatus.__call__ message final_text);; mret true
  else mret false.
End Defs.
End Terminal.

(** ** A small stand-in for the collaborators, to run the model on examples *)

Module Demo.
Definition ascii_lower (c : ascii) : ascii :=
  let n := nat_of_ascii c in
  if (Nat.leb 65 n && Nat.leb n 90)%bool then ascii_of_nat (n + 32)%nat else c.

Fixpoint lower (s : string) : string :=
  match s with
  | EmptyString => EmptyString
  | String c r => String (ascii_lower c) (lower r)
  end.

Definition known_styles : list string :=
  ["bold"; "bold cyan"; "bold red"; "bold yellow"; "bold magenta"; "red"; "green"; "italic"].

(** A style is its definition and its link. *)
Definition parse (definition : string) : (string * option string) + string :=
  if bool_decide (definition ∈ known_styles) then inl (definition, None)
  else inr ("unable to parse '" +:+ definition +:+ "' as color").

Global Instance style : RichStyle := {|
  Style := string * option string;
  Style_parse := parse;
  Style_bool := λ st, true;
  Style_str := fst;
  Style_update_link := λ st uri, (fst st, Some uri);
|}.

(** The renderer fails on the text [boom] and on nothing else. *)
Definition fails_on_boom (call : PrintCall) : option string :=
  match p_text call with
  | RStr "boom" => Some "cannot render"
  | _ => None
  end.

Global Instance collaborators : Collaborators := {|
  render_error := fails_on_boom;
  spinner_known := λ name, bool_decide (name = "simpleDotsScrolling");
  str_lower := lower;
  indent_text := λ text prefix, prefix +:+ text;
  format_file_uri := λ path, "file://" +:+ path;
  device_is_terminal := false;
|}.

(** A status on a plain pipe and one on an interactive terminal, both at
    verbosity 1 and with the default styles. *)
Definition piped : BorrowedStatus.t :=
  BorrowedStatus.__init__ (Console.mk false false []) false 1
    "simpleDotsScrolling" (StyleStr "bold magenta") (StyleStr "bold cyan").

Definition interactive : BorrowedStatus.t :=
  BorrowedStatus.__init__ (Console.mk false true []) true 1
    "simpleDotsScrolling" (StyleStr "bold magenta") (StyleStr "bold cyan").
End Demo.

(** * Vocabulary of the properties *)

(** ** The status stack *)

Module StatusStack.
Section Defs.
Context `{Collaborators}.
Import BorrowedStatus.

(** What a caller, or the [with] statement, does with the status. *)
Inductive Op : Type :=
| Call (message final_text : string)
| Enter
| Exit
| Stop.

Definition run_op (o : Op) : M t unit :=
  match o with
  | Call message final_text => __call__ message final_text
  | Enter => __enter__
  | Exit => __exit__
  | Stop => stop
  end.

(** The states of a status: built by the constructor, driven through its
    methods whether they return or raise, while the owner of the shared
    console prints on it in between. *)
Inductive reachable : t → Prop :=
| reach_init c tty v sp w su : reachable (__init__ c tty v sp w su)
| reach_op s o : reachable s → reachable (snd (run_op o s))
| reach_console s c : reachable s → reachable (set_console c s).

(** The message with its first character lowercased and the rest kept. *)
Definition lowercase_first (message : string) : string :=
  str_lower (str_take 1 message) +:+ str_drop 1 message.

(** The text of the completion line of an entry. *)
Definition completion_text (message final_text : string) : string :=
  match final_text with
  | EmptyString => "Finished " +:+ lowercase_first message
  | _ => final_text
  end.

Definition completion_line (s : t) (message final_text : string) : PrintCall :=
  mkPrintCall (RText (mkText (completion_text message final_text) (success_style s)))
    None line_kwargs true.

Definition waiting_line (s : t) (message : string) : PrintCall :=
  mkPrintCall (RText (mkText message (waiting_style s))) None line_kwargs true.

(** A live handle exists and is started. *)
Definition active (s : t) : bool :=
  match status s with
  | Some h => is_started h
  | None => false
  end.

(** The lines printed so far on the console of the status. *)
Definition printed (s : t) : list PrintCall := Console.prints (Console.events (console s)).


(** Acquire [a], acquire [b] inside it, release [b]. *)
Definition nested (a fa b fb : string) : M t unit :=
  __call__ a fa;; __enter__;; __call__ b fb;; __enter__;; __exit__.
End Defs.
End StatusStack.

(** ** The output sink *)

Module Sink.
Section Defs.
Context `{Collaborators}.
Import Terminal.

(** The call put exactly one more line on the console. *)
Definition emitted (s s' : t) : Prop :=
  ∃ call, Console.events (console s') = Console.events (console s) ++ [EPrint call].


(** The calls a client makes on a terminal; the last three are made on the
    status it shares out. *)
Inductive Op : Type :=
| InitializeStyles (styles : list (string * string))
| Display (text : string) (kwargs : gmap string PyVal)
| DisplayCritical (text : string) (kwargs : gmap string PyVal)
| DisplayError (text : string) (stderr : bool) (indent link : option string)
    (kwargs : gmap string PyVal)
| DisplayWarning (text : string) (stderr : bool) (indent link : option string)
    (kwargs : gmap string PyVal)
| DisplayInfo (text : string) (stderr : bool) (indent link : option string)
    (kwargs : gmap string PyVal)
| DisplaySuccess (text : string) (stderr : bool) (indent link : option string)
    (kwargs : gmap string PyVal)
| DisplayWaiting (text : string) (stderr : bool) (indent link : option string)
    (kwargs : gmap string PyVal)
| DisplayDebug (text : string) (level : Z) (stderr : bool) (indent link : option string)
    (kwargs : gmap string PyVal)
| DisplayMiniHeader (text : string) (stderr : bool) (indent link : option string)
| DisplayRaw (text : Renderable) (kwargs : gmap string PyVal)
| Output (text : string) (style : option StyleArg) (stderr : bool)
    (indent link : option string) (kwargs : gmap string PyVal)
| StatusIf (message final_text : string) (condition : bool)
| StatusEnter
| StatusExit
| StatusStop.

Definition run_op (o : Op) : M t unit :=
  match o with
  | InitializeStyles styles => initialize_styles styles;; mret tt
  | Display text kwargs => display text kwargs
  | DisplayCritical text kwargs => display_critical text kwargs
  | DisplayError text stderr indent link kwargs =>
      display_error text stderr indent link kwargs
  | DisplayWarning text stderr indent link kwargs =>
      display_warning text stderr indent link kwargs
  | DisplayInfo text stderr indent link kwargs =>
      display_info text stderr indent link kwargs
  | DisplaySuccess text stderr indent link kwargs =>
      display_success text stderr indent link kwargs
  | DisplayWaiting text stderr indent link kwargs =>
      display_waiting text stderr indent link kwargs
  | DisplayDebug text level stderr indent link kwargs =>
      display_debug text level stderr indent link kwargs
  | DisplayMiniHeader text stderr indent link =>
      display_mini_header text stderr indent link
  | DisplayRaw text kwargs => display_raw text kwargs
  | Output text style stderr indent link kwargs =>
      output text style stderr indent link kwargs
  | StatusIf message final_text condition =>
      status_if message final_text condition;; mret tt
  | StatusEnter => on_status BorrowedStatus.__enter__
  | StatusExit => on_status BorrowedStatus.__exit__
  | StatusStop => on_status BorrowedStatus.stop
  end.

(** The states of a terminal: built by the constructor and driven through
    its methods, whether they return or raise.  The methods left out of [Op]
    ([display_header], [display_table], [display_markdown]) only write to the
    console, without assigning its stream selection. *)
Inductive reachable : t → Prop :=
| reach_init verbosity enable_color interactive :
    reachable (__init__ verbosity enable_color interactive)
| reach_op s o : reachable s → reachable (snd (run_op o s))
| reach_written s c :
    reachable s → Console.stderr c = Console.stderr (console s) →
    reachable (set_console c s).

(** The console selects the primary stream. *)
Definition primary (s : t) : Prop := Console.stderr (console s) = false.

Definition status_primary (b : BorrowedStatus.t) : Prop :=
  Console.stderr (BorrowedStatus.console b) = false.
End Defs.
End Sink.

(** ** The style registry *)

Module Styles.
Section Defs.
Context `{Collaborators}.
Import Terminal.

Definition level_attribute (k : string) : string := "_style_level_" +:+ k.
Definition custom_attribute (k : string) : string := "_style_" +:+ k.

(** [getattr(self, '_style_level_' + k, None)] *)
Definition current_default (s : t) (k : string) : option StyleArg :=
  attrs s !! level_attribute k.

(** The key has a non-empty current default. *)
Definition has_default (s : t) (k : string) : bool := default_bool (current_default s k).

(** The attribute the item of key [k] assigns. *)
Definition target (s : t) (k : string) : string :=
  if has_default s k then level_attribute k else custom_attribute k.

(** The error string an item queues, if any. *)
Definition style_error (s : t) (k d : string) : list string :=
  if has_default s k then
    match Style_parse d with
    | inl _ => []
    | inr e =>
        ["Invalid style definition for `" +:+ k +:+ "`, defaulting to `"
           +:+ from_option style_arg_str "None" (current_default s k) +:+ "`: " +:+ e]
    end
  else [].

Definition style_errors (s : t) (styles : list (string * string)) : list string :=
  flat_map (λ item, style_error s item.1 item.2) styles.

(** What the item [(k, d)] leaves in [s'], for the defaults of [s]: the
    parsed descriptor, the parsed default when the descriptor is bad, or the
    descriptor verbatim under [_style_k] when [k] has no default. *)
Definition in_effect (s s' : t) (k d : string) : Prop :=
  if has_default s k then
    ∃ st, attrs s' !! level_attribute k = Some (StyleObj st) ∧
      match Style_parse d with
      | inl st' => st = st'
      | inr _ => ∃ d0, current_default s k = Some (StyleStr d0) ∧ Style_parse d0 = inl st
      end
  else attrs s' !! custom_attribute k = Some (StyleStr d).

Definition independent (keys : list string) : Prop :=
  ∀ k k', k ∈ keys → k' ∈ keys → k' ≠ "level_" +:+ k.

Definition defaults_parse (s : t) (keys : list string) : Prop :=
  ∀ k, k ∈ keys → has_default s k = true →
    ∃ d0 st0, current_default s k = Some (StyleStr d0) ∧ Style_parse d0 = inl st0.

(** No key is [level_] followed by a key: the attribute an item assigns is
    then not the default another item reads. *)
Definition no_shadowing (keys : list string) : bool :=
  forallb (λ k, forallb (λ k', negb (String.eqb k' ("level_" +:+ k))) keys) keys.

(** The key has no default, or its default is a descriptor that parses. *)
Definition default_parses (s : t) (k : string) : bool :=
  match current_default s k with
  | Some (StyleStr d0) =>
      negb (str_bool d0) || match Style_parse d0 with inl _ => true | inr _ => false end
  | Some (StyleObj st) => negb (Style_bool st)
  | None => true
  end.
End Defs.
End Styles.

(** ** States and inputs of the examples *)

Module Scenario.
Import BorrowedStatus.


(** A status on a terminal inside one acquired scope. *)
Definition resolving : t :=
  snd ((__call__ "Resolving dependencies" "";; __enter__) Demo.interactive).

(** A terminal that has just failed to render an error line. *)
Definition after_failure : Terminal.t :=
  snd (Sink.run_op (Sink.DisplayError "boom" true None None ∅)
         (Terminal.__init__ 0 None true)).

Definition overrides : list (string * string) :=
  [("error", "not-a-real-style"); ("spinner", "dots"); ("info", "red")].

End Scenario.

(** ** Nested scopes of the status *)

Module Scopes.
Section Defs.
Context `{Collaborators}.
Import BorrowedStatus StatusStack.

(** Nested [with status(message, final_text):] blocks, outermost first. *)
Fixpoint scopes (entries : list (string * string)) : M t unit :=
  match entries with
  | [] => mret tt
  | (message, final_text) :: rest =>
      __call__ message final_text;; __enter__;; scopes rest;; __exit__
  end.

(** The handle of a status at rest on a terminal: a spinner started on the
    top entry, or none when the stack is empty. *)
Definition resting (s : t) : option Status :=
  match last (messages s) with
  | Some (message, _) => Some (mkStatus message (spinner_style s) true)
  | None => None
  end.

(** The hook calls one block of scopes makes. *)
Definition scope_hooks (s : t) : list HookCall :=
  (match status s with None => [Initializer] | Some _ => [] end)
  ++ (match messages s with [] => [Finalizer] | _ => [] end).

(** The completion lines of the entries, innermost first, at a verbosity
    that shows them. *)
Definition finished_lines (s : t) (entries : list (string * string)) : list PrintCall :=
  if bool_decide (0 < verbosity s)
  then map (λ entry, completion_line s entry.1 entry.2) (rev entries)
  else [].

(** The two states differ in nothing the constructor fixes. *)
Definition same_configuration (s s' : t) : Prop :=
  tty s' = tty s ∧ verbosity s' = verbosity s ∧ spinner_style s' = spinner_style s ∧
  waiting_style s' = waiting_style s ∧ success_style s' = success_style s.
End Defs.
End Scopes.

(** ** The lines of the sink *)

Module Lines.
Section Defs.
Context `{Collaborators}.
Import Terminal.

(** The same terminal with another value assigned to [verbosity]. *)
Definition with_verbosity (v : Z) (s : t) : t :=
  mk v (interactive s) (console s) (attrs s) (displaying_status s) (status_cache s).

(** The style [output] prints with: the style it is given, with the link
    attached when there is one. *)
Definition line_style (style : option StyleArg) (link : option string) : option StyleArg :=
  if opt_str_bool link then
    match style with
    | Some (StyleObj st) =>
        Some (StyleObj (Style_update_link st (format_file_uri (default "" link))))
    | _ => style
    end
  else style.

(** The line [output] hands to the console. *)
Definition output_line (text : string) (style : option StyleArg) (stderr : bool)
    (indent link : option string) (kwargs : gmap string PyVal) : PrintCall :=
  mkPrintCall
    (RStr (if opt_str_bool indent then indent_text text (default "" indent) else text))
    (line_style style link) (kwargs ∪ line_kwargs) stderr.

(** The terminal with one more line on its console. *)
Definition printed_line (call : PrintCall) (s : t) : t :=
  set_console (Console.emit (EPrint call) (console s)) s.


(** Raising the verbosity does not silence [m]: if the call prints on [s],
    it prints on [s] at any higher verbosity. *)
Definition monotone (m : M t unit) (s : t) : Prop :=
  ∀ v, verbosity s ≤ v →
    Sink.emitted s (snd (m s)) →
    Sink.emitted (with_verbosity v s) (snd (m (with_verbosity v s))).
End Defs.
End Lines.

(** ** What [initialize_styles] leaves alone *)

Module Registry.
Section Defs.
Context `{Collaborators}.
Import Terminal.

(** The two states agree on everything but the style attributes. *)
Definition same_but_styles (s s' : t) : Prop :=
  verbosity s' = verbosity s ∧ interactive s' = interactive s ∧ console s' = console s ∧
  displaying_status s' = displaying_status s ∧ status_cache s' = status_cache s.

(** The attribute is one an item of key [k] may assign. *)
Definition assignable (keys : list string) (name : string) : Prop :=
  ∃ k, k ∈ keys ∧ (name = Styles.level_attribute k ∨ name = Styles.custom_attribute k).
End Defs.
End Registry.

(** ** [Terminal.display_table] *)

Module Tables.

(** [rich.table.Table], as far as [display_table] fills it in. *)
Record Table : Type := mkTable {
  table_title : string;
  show_lines : bool;
  (** [box=ASCII_DOUBLE_HEAD, safe_box=True] *)
  ascii_box : bool;
  (** the columns, each with the options it was added with *)
  table_columns : list (string * gmap string PyVal);
  table_rows : list (list string);
}.

(** [max(iterable)] of integers: nothing for an empty iterable, where Python
    raises [ValueError]. *)
Fixpoint max_of (l : list Z) : option Z :=
  match l with
  | [] => None
  | x :: rest =>
      Some (match max_of rest with
            | Some m => Z.max x m
            | None => x
            end)
  end.

(** The keys of a [dict] with integer keys. *)
Definition keys (indices : gmap Z string) : list Z := (map_to_list indices).*1.

(** [max(map(max, columns.values()))] *)
Definition max_index (columns : list (string * gmap Z string)) : option Z :=
  maxes ← mapM (λ column, max_of (keys column.2)) columns;
  max_of maxes.

(** [range(n)] *)
Definition range (n : Z) : list Z := Z.of_nat <$> seq 0 (Z.to_nat n).

(** [[indices.get(i, '') for indices in columns.values()]] *)
Definition row_at (columns : list (string * gmap Z string)) (i : Z) : list string :=
  (λ column, default "" (column.2 !! i)) <$> columns.

(** [any(row)] *)
Definition any_cell (row : list string) : bool := existsb str_bool row.

(** The columns that are left once the empty ones have been popped. *)
Definition kept (columns : list (string * gmap Z string)) : list (string * gmap Z string) :=
  filter (λ column, column.2 ≠ ∅) columns.

(** [display_table], up to its last statement: the table it hands to
    [self.output], or nothing when it returns before.  [columns] is the dict
    after [dict(columns)], as its items in order; [column_options] is [{}]
    when the argument is [None]. *)
Definition display_table (title : string) (columns : list (string * gmap Z string))
    (show_lines : bool) (column_options : option (gmap string (gmap string PyVal)))
    (force_ascii : bool) (num_rows : Z) : result (option Table) :=
  let column_options := default ∅ column_options in
  let added := (λ column, (column.1, default ∅ (column_options !! column.1)))
                 <$> kept columns in
  let columns := kept columns in
  match columns with
  | [] => Ok None
  | _ =>
      let count :=
        if bool_decide (num_rows ≠ 0) then Some num_rows
        else m ← max_index columns; Some (m + 1) in
      match count with
      | None => Raise (ValueError "max() arg is an empty sequence")
      | Some n =>
          Ok (Some (mkTable title show_lines force_ascii added
                      (filter (λ row, any_cell row = true) (row_at columns <$> range n))))
      end
  end.
End Tables.

(** ** Other stand-ins for the renderer *)

(** A renderer that prints every line. *)
Module Reliable.
Definition collaborators : Collaborators := {|
  render_error := λ _, None;
  spinner_known := λ name, bool_decide (name = "simpleDotsScrolling");
  str_lower := Demo.lower;
  indent_text := λ text prefix, prefix +:+ text;
  format_file_uri := λ path, "file://" +:+ path;
  device_is_terminal := true;
|}.
End Reliable.

(** A renderer that has lost its error stream: every line of the status
    fails, plain text is printed. *)
Module Failing.
Definition fails_on_text (call : PrintCall) : option string :=
  match p_text call with
  | RText _ => Some "broken pipe"
  | RStr _ => None
  end.

Definition collaborators : Collaborators := {|
  render_error := fails_on_text;
  spinner_known := λ name, bool_decide (name = "simpleDotsScrolling");
  str_lower := Demo.lower;
  indent_text := λ text prefix, prefix +:+ text;
  format_file_uri := λ path, "file://" +:+ path;
  device_is_terminal := true;
|}.
End Failing.

(** ** More states and inputs of the examples *)

Module Inputs.
(** Three nested scopes, the second with a final text of its own. *)
Definition three_scopes : list (string * string) :=
  [("Building", ""); ("Resolving dependencies", "Resolved"); ("Downloading", "")].

(** A quiet status on a terminal. *)
Definition quiet : BorrowedStatus.t :=
  BorrowedStatus.__init__ (Console.mk false true []) true 0
    "simpleDotsScrolling" (StyleStr "bold magenta") (StyleStr "bold cyan").

(** A terminal whose styles have been parsed. *)
Definition styled : Terminal.t :=
  snd (Sink.run_op
         (Sink.InitializeStyles [("info", "bold"); ("success", "bold cyan"); ("error", "red")])
         (Terminal.__init__ 0 None true)).

(** A terminal whose status has been used once. *)
Definition used : Terminal.t :=
  snd (Sink.run_op (Sink.StatusIf "Building" "" true) (Terminal.__init__ 1 (Some true) true)).

(** The columns of a table: name and version of two packages, the second
    without a version, and a column that is empty. *)
Definition columns : list (string * gmap Z string) :=
  [("Name", {[0 := "hatch"; 1 := "rich"]} : gmap Z string);
   ("Empty", ∅);
   ("Version", {[0 := "1.7.0"]} : gmap Z string)].
End Inputs.

(** * Proofs *)

Ltac monad := unfold mbind, M_bind, mret, M_ret, get, gets, modify, raise, zoom, try_finally.
Tactic Notation "monad" "in" hyp(H) :=
  unfold mbind, M_bind, mret, M_ret, get, gets, modify, raise, zoom, try_finally in H.

(** One case split on what a method body branches on. *)
Ltac case_atom :=
  match goal with
  | |- context [render_error ?c] => destruct (render_error c)
  | |- context [spinner_known ?c] => destruct (spinner_known c)
  | |- context [bool_decide ?P] => destruct (bool_decide P)
  | |- context [str_bool ?s] => destruct (str_bool s)
  | |- context [Terminal.opt_str_bool ?o] => destruct (Terminal.opt_str_bool o)
  | |- context [negb ?b] => is_var b; destruct b
  | |- context [if ?b then _ else _] => is_var b; destruct b
  | |- context [@lookup _ _ (gmap _ _) _ ?k ?m] => destruct (m !! k)
  | |- context [match ?x with _ => _ end] => is_var x; destruct x
  end.

Ltac case_step :=
  first [ case_atom
        | match goal with
          | |- context [last ?l] => destruct (last l) as [[? ?]|]
          end ].

(** Run a method body through all its branches. *)
Ltac crunch := repeat (cbn; monad; cbn; try case_step).

(** The same, keeping the fact [H] about the new top of the stack. *)
Ltac crunch_with H := repeat (cbn; monad; cbn; rewrite ?H; cbn; try case_atom).

Ltac methods :=
  unfold BorrowedStatus.__call__, BorrowedStatus.__enter__, BorrowedStatus.__exit__,
    BorrowedStatus.stop, BorrowedStatus.pop_message, BorrowedStatus.top_message,
    BorrowedStatus.status_stop, BorrowedStatus.status_start, BorrowedStatus.__active,
    BorrowedStatus.__output, BorrowedStatus.on_console,
    Console.print, Console.status, Console.start, Console.stop.

Ltac displays :=
  unfold Terminal.display, Terminal.display_critical, Terminal.display_error,
    Terminal.display_warning, Terminal.display_info, Terminal.display_success,
    Terminal.display_waiting, Terminal.display_debug, Terminal.display_raw,
    Terminal.output, Terminal.update_link, Terminal.attr, Terminal.on_console,
    Console.print.

(** ** The status stack *)

Section StatusStackProofs.
Context `{Collaborators}.
Import BorrowedStatus StatusStack.

Lemma op_keeps_tty (o : Op) (s : t) : tty (snd (run_op o s)) = tty s.
Proof.
  destruct s as [[fl it es] ty v sp w su hk [[m sp' b]|] ms]; destruct o;
    unfold run_op; methods; crunch; reflexivity.
Qed.

Lemma op_keeps_no_status (o : Op) (s : t) :
  tty s = false → status s = None → status (snd (run_op o s)) = None.
Proof.
  destruct s as [[fl it es] ty v sp w su hk [[m sp' b]|] ms]; destruct o; simpl;
    intros -> ?; try discriminate;
    unfold run_op; methods; crunch; reflexivity.
Qed.

(** Off a terminal a status never holds a spinner handle. *)
Lemma reachable_piped (s : t) : reachable s → tty s = false → status s = None.
Proof.
  induction 1 as [| s o Hs IH | s c Hs IH]; intros Htty.
  - reflexivity.
  - rewrite op_keeps_tty in Htty. apply op_keeps_no_status; auto.
  - destruct s; simpl in *. auto.
Qed.

Lemma piped_exit_silent (s : t) :
  reachable s → tty s = false →
  Console.events (console (snd (__exit__ s))) = Console.events (console s).
Proof.
  intros Hs Htty. pose proof (reachable_piped s Hs Htty) as Hst.
  destruct s as [[fl it es] ty v sp w su hk st ms]; simpl in *; subst.
  methods; monad; cbn. destruct (last ms) as [[? ?]|]; cbn; [|done].
  by rewrite andb_false_r.
Qed.


(** C2: leaving the status scope when the stack is empty fails at once with
    [IndexError], raised by the pop, and changes nothing. *)
Theorem exit_empty_raises (s : t) (Hempty : messages s = []) :
  __exit__ s = (Raise IndexError, s).
Proof. unfold __exit__, pop_message. monad. rewrite Hempty. reflexivity. Qed.

(** C3: off a terminal, acquiring a status and entering it prints exactly one
    line, the waiting message in the waiting style, and leaving it prints
    nothing, whatever the verbosity and the final text; no exit from a status
    off a terminal prints anything. *)
Theorem piped_one_line (s : t) (message final_text : string)
    (Hs : reachable s) (Htty : tty s = false)
    (Hr : render_error (waiting_line s message) = None) :
  (∃ s1 s2,
     (__call__ message final_text;; __enter__) s = (Ok tt, s1) ∧
     Console.events (console s1)
       = Console.events (console s) ++ [EPrint (waiting_line s message)] ∧
     __exit__ s1 = (Ok tt, s2) ∧
     Console.events (console s2) = Console.events (console s1) ∧
     messages s2 = messages s) ∧
  (∀ s0, reachable s0 → tty s0 = false →
     Console.events (console (snd (__exit__ s0))) = Console.events (console s0)).
Proof.
  split; [|apply piped_exit_silent].
  pose proof (reachable_piped s Hs Htty) as Hst.
  destruct s as [[fl it es] ty v sp w su hk st ms]; simpl in *; subst.
  unfold waiting_line in Hr; simpl in Hr.
  methods; monad; cbn.
  rewrite (last_snoc (mkText message w, final_text) ms); cbn. rewrite Hr; cbn.
  eexists _, _. split; [reflexivity|]. split; [reflexivity|]. cbn.
  rewrite (last_snoc (mkText message w, final_text) ms); cbn.
  rewrite removelast_last, andb_false_r; cbn.
  done.
Qed.


(** C9: on a terminal, after acquiring [a], acquiring [b] inside it and
    releasing [b], the handle is a spinner just started on the waiting
    message of [a]; and a pop clears the handle and calls the finalizer when
    it returns with the stack empty, and only then. *)
Theorem nested_pop_restores (s : t) (a fa b fb : string)
    (Htty : tty s = true)
    (Hsp : spinner_known (spinner_style s) = true)
    (Hr : 0 < verbosity s → render_error (completion_line s b fb) = None) :
  (∃ s', nested a fa b fb s = (Ok tt, s') ∧
     status s' = Some (mkStatus (mkText a (waiting_style s)) (spinner_style s) true) ∧
     last (Console.events (console s'))
       = Some (ESpinnerStart (mkText a (waiting_style s)) (spinner_style s)) ∧
     messages s' = messages s ++ [(mkText a (waiting_style s), fa)]) ∧
  (∀ s0 r s1, tty s0 = true → __exit__ s0 = (r, s1) →
     (r = Ok tt → messages s1 = [] →
        status s1 = None ∧ hook_calls s1 = hook_calls s0 ++ [Finalizer]) ∧
     (messages s1 ≠ [] ∨ r ≠ Ok tt →
        hook_calls s1 = hook_calls s0 ∧ (status s1 = None → status s0 = None))).
Proof.
  split.
  - unfold nested, completion_line, completion_text, lowercase_first in *.
    destruct s as [[fl it es] ty v sp w su hk st ms]; simpl in *; subst.
    assert (Hl : ∀ x : Text * string, last ((ms ++ [(mkText a w, fa)]) ++ [x]) = Some x)
      by (intros; apply last_snoc).
    assert (Hd : bool_decide (0 < v) = true ∧
                   render_error (mkPrintCall (RText (mkText
                     (if negb (str_bool fb)
                      then "Finished " +:+ str_lower (str_take 1 b) +:+ str_drop 1 b
                      else fb) su)) None line_kwargs true) = None
                 ∨ bool_decide (0 < v) = false).
    { destruct (decide (0 < v)) as [Hv|Hv].
      - left. split; [by apply bool_decide_eq_true_2|]. specialize (Hr Hv).
        by destruct fb.
      - right. by apply bool_decide_eq_false_2. }
    clear Hr.
    methods; monad; cbn -[str_take str_drop str_bool].
    destruct st as [[m sp' []]|]; destruct Hd as [[Hd Hr]|Hd];
      repeat (first [ rewrite Hsp | rewrite Hl | rewrite removelast_last
                    | rewrite (last_snoc (mkText a w, fa) ms) | rewrite Hd
                    | rewrite Hr ]; cbn -[str_take str_drop str_bool]);
      (eexists; split; [reflexivity|]; cbn; rewrite last_snoc; done).
  - intros s0 r s1 Htty0.
    destruct s0 as [[fl it es] ty v sp w su hk st ms]; simpl in *; subst.
    methods; monad; cbn.
    destruct (last ms) as [[old ft]|] eqn:Hlast; cbn;
      [| intros [= <- <-]; cbn; split; [done | tauto] ].
    destruct (last (removelast ms)) as [[top ft']|] eqn:Hnext;
      [ assert (Hne : removelast ms ≠ []) by (intros Hnil; by rewrite Hnil in Hnext)
      | apply last_None in Hnext ];
      destruct st as [[m sp' []]|]; crunch_with Hnext;
      intros [= <- <-]; cbn; (split; [ intros Hok Hnil | intros Hor ]);
      try done; try (split; [done | intros; done]);
      try (destruct Hor as [Hor|Hor]; done).
Qed.

(** C10: entering the status when no message has been pushed returns at once:
    nothing is printed, no handle is made and no hook is called, the status
    is as it was. *)
Theorem enter_empty_noop (s : t) (Hempty : messages s = []) :
  __enter__ s = (Ok tt, s).
Proof. unfold __enter__. monad. rewrite Hempty. reflexivity. Qed.
End StatusStackProofs.

(** ** The output sink *)

Section SinkProofs.
Context `{Collaborators}.
Import Terminal Sink.

Lemma not_emitted (s s' : t) :
  Console.events (console s') = Console.events (console s) → ¬ emitted s s'.
Proof.
  intros Hsame [call Hc]. rewrite Hsame in Hc.
  apply (f_equal length) in Hc. rewrite length_app in Hc. simpl in Hc. lia.
Qed.




(** C6: [display_debug] raises the [ValueError] exactly when its level is
    outside 1..3, and then before anything else: the terminal is untouched,
    whatever the verbosity. *)
Theorem display_debug_level_check (s : t) (text : string) (level : Z) (stderr : bool)
    (indent link : option string) (kwargs : gmap string PyVal) :
  ((∃ msg, fst (display_debug text level stderr indent link kwargs s) = Raise (ValueError msg))
     ↔ ¬ (1 ≤ level ≤ 3)) ∧
  (¬ (1 ≤ level ≤ 3) →
     display_debug text level stderr indent link kwargs s
     = (Raise (ValueError debug_level_message), s)).
Proof.
  assert (Hout : ¬ (1 ≤ level ≤ 3) →
            display_debug text level stderr indent link kwargs s
            = (Raise (ValueError debug_level_message), s)).
  { intros Hl. unfold display_debug. monad.
    destruct (decide (1 ≤ level)) as [H1|H1], (decide (level ≤ 3)) as [H3|H3];
      try (exfalso; lia);
      rewrite ?(bool_decide_eq_true_2 _ H1), ?(bool_decide_eq_false_2 _ H1),
        ?(bool_decide_eq_true_2 _ H3), ?(bool_decide_eq_false_2 _ H3); reflexivity. }
  split; [|exact Hout]. split.
  - intros [msg Hraise] [H1 H3]. revert Hraise. unfold display_debug. monad.
    rewrite (bool_decide_eq_true_2 _ H1), (bool_decide_eq_true_2 _ H3). cbn.
    destruct s as [v i [fl it es] ats ds sc].
    displays; monad; cbn.
    destruct (bool_decide (v < level)); cbn; [done|].
    destruct (ats !! "_style_level_debug") as [[d|st]|]; cbn; [| |done];
      destruct (opt_str_bool link); cbn; try done;
      destruct stderr; cbn; destruct (render_error _); cbn; done.
  - intros Hl. exists debug_level_message. by rewrite Hout.
Qed.


Lemma output_primary s text style stderr indent link kwargs :
  primary s → primary (snd (output text style stderr indent link kwargs s)).
Proof.
  unfold primary. destruct s as [v i [fl it es] ats ds sc]; cbn. intros ->.
  displays; crunch; reflexivity.
Qed.

Lemma gated_primary (b : bool) name s text stderr indent link kwargs :
  primary s →
  primary (snd ((if b then mret tt
                 else style ← attr name; output text (Some style) stderr indent link kwargs) s)).
Proof.
  intros Hp. destruct b; [done|]. unfold attr. monad.
  destruct (attrs s !! name); [|done]. by apply output_primary.
Qed.

Lemma bind_primary {A B} (m : M t A) (k : A → M t B) (s : t) :
  primary (snd (m s)) → (∀ a s', primary s' → primary (snd (k a s'))) →
  primary (snd ((m ≫= k) s)).
Proof. monad. destruct (m s) as [[a|e] s']; cbn; auto. Qed.

Lemma initialize_styles_console styles errors s :
  console (snd (initialize_styles_loop errors styles s)) = console s.
Proof.
  revert errors s. induction styles as [|[opt style] rest IH]; intros errors s; [done|].
  cbn. monad. unfold initialize_style. monad. unfold setattr. monad.
  destruct s as [v i c ats ds sc]; cbn.
  destruct (default_bool _); cbn; [destruct (Style_parse style); cbn|].
  - by rewrite IH.
  - destruct (ats !! _) as [[d|st]|]; cbn; try done.
    destruct (Style_parse d); cbn; [by rewrite IH | done].
  - by rewrite IH.
Qed.

Lemma status_output_primary text b :
  Console.stderr (BorrowedStatus.console (snd (BorrowedStatus.__output text b))) = false.
Proof.
  destruct b as [[fl it es] ty v sp w su hk st ms]. methods; crunch; reflexivity.
Qed.

Lemma status_method_primary (m : M BorrowedStatus.t unit) b :
  (∃ message final_text, m = BorrowedStatus.__call__ message final_text) ∨
  m = BorrowedStatus.__enter__ ∨ m = BorrowedStatus.__exit__ ∨ m = BorrowedStatus.stop →
  status_primary b → status_primary (snd (m b)).
Proof.
  unfold status_primary.
  destruct b as [[fl it es] ty v sp w su hk [[msg sp' started]|] ms]; cbn;
    intros [(message & final_text & ->)|[->|[->| ->]]] ->;
    methods; crunch; reflexivity.
Qed.

Lemma status_console s : BorrowedStatus.console (status s) = console s.
Proof. unfold status. by destruct (status_cache s) as [[]|]. Qed.

Lemma on_status_primary (m : M BorrowedStatus.t unit) s :
  (∃ message final_text, m = BorrowedStatus.__call__ message final_text) ∨
  m = BorrowedStatus.__enter__ ∨ m = BorrowedStatus.__exit__ ∨ m = BorrowedStatus.stop →
  primary s → primary (snd (on_status m s)).
Proof.
  intros Hm Hp. unfold on_status, primary.
  pose proof (status_method_primary m (status s) Hm) as Hb.
  unfold status_primary in Hb. rewrite status_console in Hb. specialize (Hb Hp).
  by destruct (m (status s)) as [r b'].
Qed.

Ltac gated_case :=
  apply bind_primary; [done|]; intros; by apply gated_primary.

Lemma op_primary o s : primary s → primary (snd (run_op o s)).
Proof.
  intros Hp. destruct o; cbn [run_op].
  - unfold primary, initialize_styles. monad.
    pose proof (initialize_styles_console styles [] s) as Hc.
    destruct (initialize_styles_loop [] styles s) as [[errs|e] s']; cbn in *; by rewrite Hc.
  - unfold primary in *. destruct s as [v i [fl it es] ats ds sc]; cbn in *; subst.
    displays; crunch; reflexivity.
  - unfold primary in *. destruct s as [v i [fl it es] ats ds sc]; cbn in *; subst.
    displays; crunch; reflexivity.
  - unfold display_error. gated_case.
  - unfold display_warning. gated_case.
  - unfold display_info. gated_case.
  - unfold display_success. gated_case.
  - unfold display_waiting. gated_case.
  - unfold display_debug. apply bind_primary; [done|]. intros a s' Hs'.
    destruct (negb _); [done|]. by apply gated_primary.
  - unfold display_mini_header. apply bind_primary; [done|]. intros a s' Hs'.
    destruct (bool_decide _); [done|].
    apply bind_primary; [unfold display_info; gated_case|].
    intros _ s1 Hs1. apply bind_primary; [unfold display_success; gated_case|].
    intros _ s2 Hs2. unfold display_info. gated_case.
  - unfold primary in *. destruct s as [v i [fl it es] ats ds sc]; cbn in *; subst.
    displays; crunch; reflexivity.
  - by apply output_primary.
  - unfold status_if. destruct condition; [|done].
    apply bind_primary; [|done]. apply bind_primary; [|done].
    apply on_status_primary; eauto.
  - apply on_status_primary; auto.
  - apply on_status_primary; auto.
  - apply on_status_primary; auto.
Qed.

(** Between calls the console of a terminal selects the primary stream. *)
Lemma reachable_primary s : reachable s → primary s.
Proof.
  induction 1 as [| s o Hs IH | s c Hs IH Hc]; [done | by apply op_primary |].
  unfold primary in *. destruct s; cbn in *. congruence.
Qed.

(** C5: a call of [output] for the error stream, and a line printed by the
    status, leave the stream selection of the console as it was before the
    call, whether the renderer prints or raises. *)
Theorem stream_selection_restored (s : t) (Hs : reachable s) :
  (∀ text style indent link kwargs r s',
     output text style true indent link kwargs s = (r, s') →
     Console.stderr (console s') = Console.stderr (console s)) ∧
  (∀ text r b',
     BorrowedStatus.__output text (status s) = (r, b') →
     Console.stderr (BorrowedStatus.console b') = Console.stderr (console s)).
Proof.
  pose proof (reachable_primary s Hs) as Hp. unfold primary in Hp. rewrite Hp. split.
  - intros text style indent link kwargs r s' Hrun.
    pose proof (output_primary s text style true indent link kwargs Hp) as Ho.
    by rewrite Hrun in Ho.
  - intros text r b' Hrun.
    pose proof (status_output_primary text (status s)) as Ho. by rewrite Hrun in Ho.
Qed.
End SinkProofs.

(** ** The style registry *)

Section StylesProofs.
Context `{Collaborators}.
Import Terminal Styles.

Lemma flat_map_agree {A B} (f g : A → list B) (l : list A) :
  (∀ a, a ∈ l → f a = g a) → flat_map f l = flat_map g l.
Proof.
  induction l as [|a l IH]; intros Hfg; [done|]. cbn.
  rewrite (Hfg a) by apply list_elem_of_here.
  rewrite IH; [done|]. intros b Hb. apply Hfg. by apply list_elem_of_further.
Qed.

Lemma level_attribute_inj k k' : level_attribute k = level_attribute k' → k = k'.
Proof. unfold level_attribute. intros Heq. by simplify_eq/=. Qed.

Lemma custom_attribute_inj k k' : custom_attribute k = custom_attribute k' → k = k'.
Proof. unfold custom_attribute. intros Heq. by simplify_eq/=. Qed.

Lemma custom_is_level k k' : custom_attribute k' = level_attribute k → k' = "level_" +:+ k.
Proof. unfold custom_attribute, level_attribute. intros Heq. by simplify_eq/=. Qed.

(** One item: the step returns, queues the item's error string if any, and
    assigns exactly the item's attribute. *)
Lemma initialize_style_run (s : t) (errors : list string) (k d : string) :
  (has_default s k = true →
     ∃ d0 st0, current_default s k = Some (StyleStr d0) ∧ Style_parse d0 = inl st0) →
  ∃ v, initialize_style errors k d s
       = (Ok (errors ++ style_error s k d), set_attrs (<[target s k := v]> (attrs s)) s) ∧
    if has_default s k then
      ∃ st, v = StyleObj st ∧
        match Style_parse d with
        | inl st' => st = st'
        | inr _ => ∃ d0, current_default s k = Some (StyleStr d0) ∧ Style_parse d0 = inl st
        end
    else v = StyleStr d.
Proof.
  intros Hdef. unfold initialize_style, style_error, target, has_default, current_default in *.
  unfold level_attribute, custom_attribute in *. monad. unfold setattr. monad.
  destruct (default_bool (attrs s !! ("_style_level_" +:+ k))) eqn:Hb; cbn.
  - destruct (Hdef eq_refl) as (d0 & st0 & Hd0 & Hp0).
    destruct (Style_parse d) as [st|e] eqn:Hp; cbn.
    + exists (StyleObj st). rewrite app_nil_r. eauto.
    + rewrite Hd0; cbn. rewrite Hp0; cbn. exists (StyleObj st0). split; [done|].
      exists st0. split; [done|]. eauto.
  - exists (StyleStr d). by rewrite app_nil_r.
Qed.

Lemma target_distinct (s : t) (keys : list string) (k k' : string) :
  independent keys → k ∈ keys → k' ∈ keys → k ≠ k' → target s k ≠ target s k'.
Proof.
  intros Hind Hk Hk' Hne. unfold target.
  destruct (has_default s k), (has_default s k'); intros Heq.
  - by apply level_attribute_inj in Heq.
  - symmetry in Heq. apply custom_is_level in Heq. by eapply (Hind k k').
  - apply custom_is_level in Heq. by eapply (Hind k' k).
  - by apply custom_attribute_inj in Heq.
Qed.

Lemma target_not_level (s : t) (keys : list string) (k k' : string) :
  independent keys → k ∈ keys → k' ∈ keys → k ≠ k' → target s k ≠ level_attribute k'.
Proof.
  intros Hind Hk Hk' Hne. unfold target. destruct (has_default s k); intros Heq.
  - by apply level_attribute_inj in Heq.
  - apply custom_is_level in Heq. by eapply (Hind k' k).
Qed.

(** The loop, by induction on the items: no later item reads or assigns the
    attribute of an earlier one. *)
Lemma initialize_styles_loop_run (styles : list (string * string)) :
  ∀ (s : t) (errors : list string),
    NoDup styles.*1 → independent styles.*1 → defaults_parse s styles.*1 →
    ∃ s', initialize_styles_loop errors styles s = (Ok (errors ++ style_errors s styles), s') ∧
      (∀ k d, (k, d) ∈ styles → in_effect s s' k d) ∧
      (∀ name, (∀ k, k ∈ styles.*1 → name ≠ target s k) → attrs s' !! name = attrs s !! name).
Proof.
  induction styles as [|[k0 d0] rest IH]; intros s errors Hdup Hind Hdef.
  - exists s. cbn. rewrite app_nil_r. split; [done|]. split; [|done].
    intros k d Hin. by apply elem_of_nil in Hin.
  - cbn [fmap list_fmap fst] in *. apply NoDup_cons in Hdup as [Hk0 Hdup].
    assert (Hk0in : k0 ∈ k0 :: rest.*1) by apply list_elem_of_here.
    destruct (initialize_style_run s errors k0 d0) as (v & Hstep & Hv).
    { intros Hh. by apply Hdef. }
    set (s1 := set_attrs (<[target s k0 := v]> (attrs s)) s) in *.
    assert (Hagree : ∀ k, k ∈ rest.*1 → current_default s1 k = current_default s k).
    { intros k Hk. unfold current_default, s1. destruct s; cbn.
      apply lookup_insert_ne.
      apply (target_not_level _ (k0 :: rest.*1)); auto.
      - by apply list_elem_of_further.
      - intros ->. done. }
    assert (Hhas : ∀ k, k ∈ rest.*1 → has_default s1 k = has_default s k).
    { intros k Hk. unfold has_default. by rewrite Hagree. }
    assert (Htarget : ∀ k, k ∈ rest.*1 → target s1 k = target s k).
    { intros k Hk. unfold target. by rewrite Hhas. }
    destruct (IH s1 (errors ++ style_error s k0 d0)) as (s' & Hrun & Heff & Hframe).
    + done.
    + intros k k' Hk Hk'. apply Hind; by apply list_elem_of_further.
    + intros k Hk Hh. rewrite Hhas in Hh by done. rewrite Hagree by done.
      apply Hdef; [by apply list_elem_of_further | done].
    + exists s'. split; [|split].
      * cbn. monad. rewrite Hstep. fold s1. rewrite Hrun. f_equal. f_equal.
        rewrite <- app_assoc. f_equal. f_equal. unfold style_errors.
        apply flat_map_agree. intros [k d] Hin. cbn.
        assert (Hk : k ∈ rest.*1) by (apply list_elem_of_fmap; by exists (k, d)).
        unfold style_error. by rewrite Hhas, Hagree.
      * intros k d Hin. apply elem_of_cons in Hin as [[= -> ->]|Hin].
        -- unfold in_effect.
           assert (Hkeep : attrs s' !! target s k0 = Some v).
           { rewrite Hframe.
             - unfold s1. destruct s; cbn. apply lookup_insert_eq.
             - intros k Hk. rewrite Htarget by done.
               apply (target_distinct _ (k0 :: rest.*1)); auto.
               + by apply list_elem_of_further.
               + intros ->. done. }
           unfold target in Hkeep. destruct (has_default s k0).
           ++ destruct Hv as (st & -> & Hst). eauto.
           ++ by subst v.
        -- assert (Hk : k ∈ rest.*1) by (apply list_elem_of_fmap; by exists (k, d)).
           specialize (Heff k d Hin). unfold in_effect in *.
           by rewrite Hhas, Hagree in Heff.
      * intros name Hname. rewrite Hframe.
        -- unfold s1. destruct s; cbn. apply lookup_insert_ne.
           intros Heq. by apply (Hname k0).
        -- intros k Hk. rewrite Htarget by done. apply Hname. by apply list_elem_of_further.
Qed.

Lemma no_shadowing_independent keys : no_shadowing keys = true → independent keys.
Proof.
  unfold no_shadowing, independent. intros Hall k k' Hk Hk'.
  rewrite forallb_forall in Hall. apply list_elem_of_In, Hall in Hk.
  rewrite forallb_forall in Hk. apply list_elem_of_In, Hk in Hk'.
  apply negb_true_iff, String.eqb_neq in Hk'. done.
Qed.

Lemma default_parses_spec s keys :
  forallb (default_parses s) keys = true → defaults_parse s keys.
Proof.
  intros Hall k Hk Hh. rewrite forallb_forall in Hall.
  apply list_elem_of_In, Hall in Hk. unfold default_parses, has_default in *.
  destruct (current_default s k) as [[d0|st]|]; cbn in *; [| |done].
  - rewrite Hh in Hk. cbn in Hk. destruct (Style_parse d0) as [st0|] eqn:Hp; [|done].
    by exists d0, st0.
  - by rewrite Hh in Hk.
Qed.

End StylesProofs.

(** * Further properties *)

(** ** The status stack *)

Section StatusExtras.
Context `{Collaborators}.
Import BorrowedStatus StatusStack Scopes.

(** X1: no method of the status changes what its constructor fixed: the
    tty mode, the verbosity, the spinner and the two styles are the same
    after every call, whether it returns or raises. *)
Theorem status_configuration_fixed (o : Op) (s : t) :
  tty (snd (run_op o s)) = tty s ∧
  verbosity (snd (run_op o s)) = verbosity s ∧
  spinner_style (snd (run_op o s)) = spinner_style s ∧
  waiting_style (snd (run_op o s)) = waiting_style s ∧
  success_style (snd (run_op o s)) = success_style s.
Proof.
  destruct s as [[fl it es] ty v sp w su hk [[m sp' b]|] ms]; destruct o;
    unfold run_op; methods; crunch; done.
Qed.

Lemma op_keeps_piped (o : Op) (s : t) :
  tty s = false → status s = None → hook_calls s = [] →
  status (snd (run_op o s)) = None ∧ hook_calls (snd (run_op o s)) = [].
Proof.
  destruct s as [[fl it es] ty v sp w su hk [[m sp' b]|] ms]; destruct o; simpl;
    intros -> ? ->; try discriminate;
    unfold run_op; methods; crunch; done.
Qed.

(** X2: off a terminal a status never holds a spinner handle and never
    calls its initializer or finalizer. *)
Theorem piped_status_never_live (s : t) (Hs : reachable s) (Htty : tty s = false) :
  status s = None ∧ hook_calls s = [].
Proof.
  induction Hs as [| s o Hs IH | s c Hs IH].
  - done.
  - rewrite op_keeps_tty in Htty. destruct (IH Htty). by apply op_keeps_piped.
  - destruct s; simpl in *. auto.
Qed.

Ltac prints_norm :=
  unfold printed, Console.prints; cbn; rewrite ?omap_app; cbn; rewrite ?app_nil_r.

(** X3: on a terminal at verbosity 0 or below no method of the status
    prints a line: the spinner is all there is to see. *)
Theorem quiet_status_prints_nothing (o : Op) (s : t)
    (Htty : tty s = true) (Hquiet : verbosity s ≤ 0) :
  printed (snd (run_op o s)) = printed s.
Proof.
  destruct s as [[fl it es] ty v sp w su hk [[m sp' b]|] ms]; simpl in *; subst.
  all: assert (Hd : bool_decide (0 < v) = false) by (apply bool_decide_eq_false_2; lia).
  all: destruct o; unfold run_op; methods;
    repeat (cbn; monad; cbn; rewrite ?Hd; cbn; try case_step);
    prints_norm; reflexivity.
Qed.




(** X5: when the renderer fails on the completion line, [__exit__] raises
    with the entry already popped, while the spinner handle is left as it
    was, still started, and the finalizer is not called; the console is back
    on its primary stream. *)
Theorem exit_render_failure_keeps_spinner (s : t) (message : string) (w : StyleArg)
    (final_text msg : string)
    (Htop : last (messages s) = Some (mkText message w, final_text))
    (Hv : 0 < verbosity s) (Hactive : active s = true)
    (Hfail : render_error (completion_line s message final_text) = Some msg) :
  ∃ s', __exit__ s = (Raise (RendererError msg), s') ∧
    messages s' = removelast (messages s) ∧
    status s' = status s ∧
    hook_calls s' = hook_calls s ∧
    Console.events (console s') = Console.events (console s) ∧
    Console.stderr (console s') = false.
Proof.
  unfold active, completion_line, completion_text, lowercase_first in *.
  destruct s as [[fl it es] ty v sp w' su hk [[m sp' b]|] ms]; simpl in *; subst; [|done].
  methods; monad; cbn. rewrite Htop; cbn.
  rewrite (bool_decide_eq_true_2 _ Hv); cbn.
  destruct final_text; cbn in *; rewrite Hfail; cbn; eexists; (split; [reflexivity|]); done.
Qed.

Lemma acquire_run (s : t) (message final_text : string) :
  tty s = true → spinner_known (spinner_style s) = true →
  ∃ s1, __enter__ (snd (__call__ message final_text s)) = (Ok tt, s1) ∧
    messages s1 = messages s ++ [(mkText message (waiting_style s), final_text)] ∧
    status s1 = Some (mkStatus (mkText message (waiting_style s)) (spinner_style s) true) ∧
    hook_calls s1
      = hook_calls s ++ (match status s with None => [Initializer] | Some _ => [] end) ∧
    printed s1 = printed s ∧
    same_configuration s s1.
Proof.
  unfold same_configuration.
  destruct s as [[fl it es] ty v sp w su hk st ms]; simpl; intros -> Hsp.
  methods; monad; cbn.
  rewrite (last_snoc (mkText message w, final_text) ms); cbn.
  destruct st as [[m sp' []]|]; cbn; rewrite Hsp; cbn;
    (eexists; split; [reflexivity|]); cbn; rewrite ?app_nil_r;
    repeat split; prints_norm; reflexivity.
Qed.

Lemma release_run (s : t) (message : string) (w : StyleArg) (final_text : string) :
  tty s = true → spinner_known (spinner_style s) = true →
  (∀ call, render_error call = None) →
  last (messages s) = Some (mkText message w, final_text) →
  status s = Some (mkStatus (mkText message w) (spinner_style s) true) →
  ∃ s', __exit__ s = (Ok tt, s') ∧
    messages s' = removelast (messages s) ∧
    status s' = match last (removelast (messages s)) with
                | Some (top, _) => Some (mkStatus top (spinner_style s) true)
                | None => None
                end ∧
    hook_calls s'
      = hook_calls s ++ (match removelast (messages s) with [] => [Finalizer] | _ => [] end) ∧
    printed s' = printed s ++ finished_lines s [(message, final_text)] ∧
    same_configuration s s'.
Proof.
  unfold same_configuration, finished_lines, completion_line, completion_text, lowercase_first.
  destruct s as [[fl it es] ty v sp w' su hk st ms]; simpl; intros -> Hsp Hr Htop ->.
  methods; monad; cbn. rewrite Htop; cbn.
  destruct (last (removelast ms)) as [[top ft]|] eqn:Hnext.
  - assert (Hne : removelast ms ≠ []) by (intros Hnil; by rewrite Hnil in Hnext).
    destruct (bool_decide (0 < v)); cbn;
      [destruct final_text; cbn; rewrite Hr; cbn|];
      rewrite Hnext; cbn; rewrite Hsp; cbn;
      (eexists; split; [reflexivity|]); cbn;
      destruct (removelast ms); try done; rewrite ?app_nil_r;
      repeat split; prints_norm; reflexivity.
  - apply last_None in Hnext.
    destruct (bool_decide (0 < v)); cbn;
      [destruct final_text; cbn; rewrite Hr; cbn|];
      rewrite Hnext; cbn;
      (eexists; split; [reflexivity|]); cbn; rewrite ?app_nil_r;
      repeat split; prints_norm; reflexivity.
Qed.

Lemma bind_run {S A B} (m : M S A) (k : A → M S B) (s s1 : S) (a : A) :
  m s = (Ok a, s1) → (m ≫= k) s = k a s1.
Proof. intros Hm. unfold mbind, M_bind. by rewrite Hm. Qed.

Lemma finished_lines_same (s s' : t) entries :
  same_configuration s s' → finished_lines s' entries = finished_lines s entries.
Proof.
  intros (_ & Hv & _ & _ & Hsu). unfold finished_lines, completion_line.
  by rewrite Hv, Hsu.
Qed.

Lemma finished_lines_cons (s : t) entry entries :
  finished_lines s (entry :: entries) = finished_lines s entries ++ finished_lines s [entry].
Proof.
  unfold finished_lines. destruct (bool_decide (0 < verbosity s)); [|done].
  cbn. by rewrite map_app.
Qed.

(** X6: nested scopes on a terminal, with a renderer that prints every
    line: the block returns with the stack as it found it, having printed
    one completion line per scope, innermost first (none at verbosity 0 or
    below); a non-empty block leaves the spinner on the entry it found on
    top, or no handle when the stack is empty, and calls the initializer only
    if no handle was there and the finalizer only if the stack is empty. *)
Theorem scopes_finish_in_reverse (s : t) (entries : list (string * string))
    (Htty : tty s = true)
    (Hsp : spinner_known (spinner_style s) = true)
    (Hr : ∀ call, render_error call = None) :
  ∃ s', scopes entries s = (Ok tt, s') ∧
    messages s' = messages s ∧
    printed s' = printed s ++ finished_lines s entries ∧
    status s' = (match entries with [] => status s | _ => resting s end) ∧
    hook_calls s' = hook_calls s ++ (match entries with [] => [] | _ => scope_hooks s end) ∧
    same_configuration s s'.
Proof.
  revert s Htty Hsp. induction entries as [|[message final_text] rest IH]; intros s Htty Hsp.
  - exists s. cbn. unfold finished_lines, same_configuration.
    destruct (bool_decide _); rewrite !app_nil_r; done.
  - destruct (acquire_run s message final_text Htty Hsp)
      as (s1 & Henter & Hms1 & Hst1 & Hhk1 & Hpr1 & Hcf1).
    pose proof Hcf1 as (Hty1 & Hv1 & Hsp1 & Hw1 & Hsu1).
    destruct (IH s1) as (s2 & Hrest & Hms2 & Hpr2 & Hst2 & Hhk2 & Hcf2);
      [congruence | congruence |].
    pose proof Hcf2 as (Hty2 & Hv2 & Hsp2 & Hw2 & Hsu2).
    assert (Hst2' : status s2
              = Some (mkStatus (mkText message (waiting_style s)) (spinner_style s2) true)).
    { rewrite Hst2. destruct rest; [by rewrite Hst1, Hsp2, Hsp1|].
      unfold resting. rewrite Hms1, last_snoc. by rewrite Hsp2. }
    assert (Hhk2' : hook_calls s2 = hook_calls s1).
    { rewrite Hhk2. destruct rest; [by rewrite app_nil_r|].
      unfold scope_hooks. rewrite Hst1, Hms1. destruct (messages s); by rewrite app_nil_r. }
    destruct (release_run s2 message (waiting_style s) final_text)
      as (s' & Hexit & Hms' & Hst' & Hhk' & Hpr' & Hcf'); try congruence.
    { rewrite Hms2, Hms1. apply last_snoc. }
    pose proof Hcf' as (Hty' & Hv' & Hsp' & Hw' & Hsu').
    rewrite Hms2, Hms1, removelast_last in Hms', Hst', Hhk'.
    exists s'. split; [|split; [|split; [|split; [|split]]]].
    + cbn [scopes].
      rewrite (bind_run _ _ s (snd (__call__ message final_text s)) tt) by reflexivity.
      rewrite (bind_run _ _ _ s1 tt Henter), (bind_run _ _ _ s2 tt Hrest). exact Hexit.
    + done.
    + rewrite Hpr', Hpr2, Hpr1, (finished_lines_cons s (message, final_text) rest).
      rewrite <- app_assoc. f_equal. f_equal; apply finished_lines_same; [done|].
      unfold same_configuration in *. intuition congruence.
    + rewrite Hst'. unfold resting. by rewrite Hsp2, Hsp1.
    + rewrite Hhk', Hhk2', Hhk1. unfold scope_hooks. by rewrite <- app_assoc.
    + unfold same_configuration in *. intuition congruence.
Qed.
End StatusExtras.

(** ** The output sink *)

Section SinkExtras.
Context `{Collaborators}.
Import Terminal Sink Lines.

Lemma setdefault_union (key : string) (value : PyVal) (kwargs : gmap string PyVal) :
  setdefault key value kwargs = kwargs ∪ {[key := value]}.
Proof.
  unfold setdefault. apply map_eq. intros k. rewrite lookup_union.
  destruct (kwargs !! key) eqn:Hkey.
  - destruct (decide (k = key)) as [->|Hne].
    + rewrite Hkey. by rewrite lookup_singleton_eq.
    + rewrite lookup_singleton_ne by done. by destruct (kwargs !! k).
  - destruct (decide (k = key)) as [->|Hne].
    + rewrite lookup_insert_eq, Hkey. by rewrite lookup_singleton_eq.
    + rewrite lookup_insert_ne by done. rewrite lookup_singleton_ne by done.
      by destruct (kwargs !! k).
Qed.

Lemma output_kwargs (kwargs : gmap string PyVal) :
  setdefault "crop" (PyBool false)
    (setdefault "no_wrap" (PyBool true) (setdefault "overflow" (PyStr "ignore") kwargs))
  = kwargs ∪ line_kwargs.
Proof.
  rewrite !setdefault_union. unfold line_kwargs.
  rewrite <- !(assoc_L (∪)). f_equal.
Qed.

Lemma output_line_run (s : t) (text : string) (style : option StyleArg) (stderr : bool)
    (indent link : option string) (kwargs : gmap string PyVal) :
  primary s →
  (opt_str_bool link = true → ∃ st, style = Some (StyleObj st)) →
  render_error (output_line text style stderr indent link kwargs) = None →
  output text style stderr indent link kwargs s
  = (Ok tt, printed_line (output_line text style stderr indent link kwargs) s).
Proof.
  unfold primary, output_line, line_style, printed_line. intros Hp Hlink Hr.
  destruct s as [v i [fl it es] ats ds sc]; cbn in *; subst.
  unfold output. rewrite output_kwargs. monad. unfold update_link, Terminal.on_console. monad.
  destruct (opt_str_bool link); cbn.
  - destruct (Hlink eq_refl) as [st ->]. cbn in *.
    unfold Console.print. destruct stderr; cbn; rewrite Hr; reflexivity.
  - unfold Console.print. destruct stderr; cbn; rewrite Hr; reflexivity.
Qed.

Lemma printed_line_primary (call : PrintCall) (s : t) : primary s → primary (printed_line call s).
Proof. unfold primary, printed_line. by destruct s as [v i [fl it es] ats ds sc]. Qed.

(** X7: the line [output] prints: the text, indented when an indent is
    given, in the style with the link attached, on the error stream exactly
    when [stderr] is set, with the caller's keyword arguments taking
    precedence over the three defaults; the terminal is otherwise unchanged. *)
Theorem output_prints_line (s : t) (text : string) (style : option StyleArg) (stderr : bool)
    (indent link : option string) (kwargs : gmap string PyVal)
    (Hs : reachable s)
    (Hlink : opt_str_bool link = true → ∃ st, style = Some (StyleObj st))
    (Hr : render_error (output_line text style stderr indent link kwargs) = None) :
  output text style stderr indent link kwargs s
  = (Ok tt, printed_line (output_line text style stderr indent link kwargs) s).
Proof. apply output_line_run; [by apply reachable_primary | done | done]. Qed.




Lemma gated_line_run (floor : Z) (name : string) (style : StyleArg) (s : t)
    (text : string) (stderr : bool) (indent link : option string)
    (kwargs : gmap string PyVal) :
  primary s → floor ≤ verbosity s → attrs s !! name = Some style →
  (opt_str_bool link = true → ∃ st, style = StyleObj st) →
  render_error (output_line text (Some style) stderr indent link kwargs) = None →
  (s0 ← get;
   if bool_decide (verbosity s0 < floor) then mret tt
   else style ← attr name; output text (Some style) stderr indent link kwargs) s
  = (Ok tt, printed_line (output_line text (Some style) stderr indent link kwargs) s).
Proof.
  intros Hp Hv Hattr Hlink Hr. monad.
  rewrite bool_decide_eq_false_2 by lia. unfold attr. monad. rewrite Hattr.
  apply output_line_run; [done | | done].
  intros Hl. destruct (Hlink Hl) as [st ->]. eauto.
Qed.

(** X10: at verbosity 0 or above [display_mini_header] prints three lines
    in order: the opening bracket in the info style, with the indent and no
    line end, the text in the success style with the link and no line end,
    and the closing bracket in the info style. *)
Theorem mini_header_lines (s : t) (text : string) (stderr : bool) (indent link : option string)
    (info success : StyleArg)
    (Hs : reachable s)
    (Hv : 0 ≤ verbosity s)
    (Hinfo : attrs s !! "_style_level_info" = Some info)
    (Hsuccess : attrs s !! "_style_level_success" = Some success)
    (Hlink : opt_str_bool link = true → ∃ st, success = StyleObj st)
    (Hr1 : render_error (output_line "[" (Some info) stderr indent None {["end" := PyStr ""]})
           = None)
    (Hr2 : render_error (output_line text (Some success) stderr None link {["end" := PyStr ""]})
           = None)
    (Hr3 : render_error (output_line "]" (Some info) stderr None None ∅) = None) :
  display_mini_header text stderr indent link s
  = (Ok tt,
     printed_line (output_line "]" (Some info) stderr None None ∅)
       (printed_line (output_line text (Some success) stderr None link {["end" := PyStr ""]})
          (printed_line (output_line "[" (Some info) stderr indent None {["end" := PyStr ""]})
             s))).
Proof.
  pose proof (reachable_primary s Hs) as Hp.
  assert (Hd : bool_decide (verbosity s < 0) = false) by (apply bool_decide_eq_false_2; lia).
  set (l1 := output_line "[" (Some info) stderr indent None {["end" := PyStr ""]}).
  set (l2 := output_line text (Some success) stderr None link {["end" := PyStr ""]}).
  set (l3 := output_line "]" (Some info) stderr None None ∅).
  assert (H1 : display_info "[" stderr indent None {["end" := PyStr ""]} s
               = (Ok tt, printed_line l1 s)).
  { apply (gated_line_run 0 "_style_level_info"); try done. }
  assert (H2 : display_success text stderr None link {["end" := PyStr ""]} (printed_line l1 s)
               = (Ok tt, printed_line l2 (printed_line l1 s))).
  { apply (gated_line_run 0 "_style_level_success");
      [by apply printed_line_primary | by destruct s | by destruct s | done | done]. }
  assert (H3 : display_info "]" stderr None None ∅ (printed_line l2 (printed_line l1 s))
               = (Ok tt, printed_line l3 (printed_line l2 (printed_line l1 s)))).
  { apply (gated_line_run 0 "_style_level_info");
      [by do 2 apply printed_line_primary | by destruct s | by destruct s | done | done]. }
  unfold display_mini_header. monad. rewrite Hd, H1, H2. exact H3.
Qed.

Lemma output_failure_run (s : t) (text : string) (style : option StyleArg) (stderr : bool)
    (indent link : option string) (kwargs : gmap string PyVal) (msg : string) :
  primary s →
  (opt_str_bool link = true → ∃ st, style = Some (StyleObj st)) →
  render_error (output_line text style stderr indent link kwargs) = Some msg →
  output text style stderr indent link kwargs s = (Raise (RendererError msg), s).
Proof.
  unfold primary, output_line, line_style. intros Hp Hlink Hr.
  destruct s as [v i [fl it es] ats ds sc]; cbn in *; subst.
  unfold output. rewrite output_kwargs. monad. unfold update_link, Terminal.on_console. monad.
  destruct (opt_str_bool link); cbn.
  - destruct (Hlink eq_refl) as [st ->]. cbn in *.
    unfold Console.print. destruct stderr; cbn; rewrite Hr; reflexivity.
  - unfold Console.print. destruct stderr; cbn; rewrite Hr; reflexivity.
Qed.

(** X11: [display_mini_header] is not all-or-nothing: when the renderer
    prints the opening bracket and fails on the text, the call raises with
    the bracket already on the console. *)
Theorem mini_header_not_atomic (s : t) (text : string) (stderr : bool)
    (indent link : option string) (info success : StyleArg) (msg : string)
    (Hs : reachable s)
    (Hv : 0 ≤ verbosity s)
    (Hinfo : attrs s !! "_style_level_info" = Some info)
    (Hsuccess : attrs s !! "_style_level_success" = Some success)
    (Hlink : opt_str_bool link = true → ∃ st, success = StyleObj st)
    (Hr1 : render_error (output_line "[" (Some info) stderr indent None {["end" := PyStr ""]})
           = None)
    (Hr2 : render_error (output_line text (Some success) stderr None link {["end" := PyStr ""]})
           = Some msg) :
  display_mini_header text stderr indent link s
  = (Raise (RendererError msg),
     printed_line (output_line "[" (Some info) stderr indent None {["end" := PyStr ""]}) s).
Proof.
  pose proof (reachable_primary s Hs) as Hp.
  assert (Hd : bool_decide (verbosity s < 0) = false) by (apply bool_decide_eq_false_2; lia).
  set (l1 := output_line "[" (Some info) stderr indent None {["end" := PyStr ""]}).
  assert (H1 : display_info "[" stderr indent None {["end" := PyStr ""]} s
               = (Ok tt, printed_line l1 s)).
  { apply (gated_line_run 0 "_style_level_info"); try done. }
  assert (H2 : display_success text stderr None link {["end" := PyStr ""]} (printed_line l1 s)
               = (Raise (RendererError msg), printed_line l1 s)).
  { unfold display_success, attr. monad.
    replace (bool_decide (verbosity (printed_line l1 s) < 0)) with false
      by (by destruct s).
    replace (attrs (printed_line l1 s) !! "_style_level_success") with (Some success)
      by (by destruct s).
    apply output_failure_run; [by apply printed_line_primary | | done].
    intros Hl. destruct (Hlink Hl) as [st ->]. eauto. }
  unfold display_mini_header. monad. rewrite Hd, H1. by rewrite H2.
Qed.

Lemma output_with_verbosity (v : Z) (s : t) (text : string) (style : option StyleArg)
    (stderr : bool) (indent link : option string) (kwargs : gmap string PyVal) :
  output text style stderr indent link kwargs (with_verbosity v s)
  = (fst (output text style stderr indent link kwargs s),
     with_verbosity v (snd (output text style stderr indent link kwargs s))).
Proof.
  unfold with_verbosity. destruct s as [v0 i [fl it es] ats ds sc].
  displays; crunch; reflexivity.
Qed.

Lemma emitted_with_verbosity (v : Z) (s s' : t) :
  emitted s s' → emitted (with_verbosity v s) (with_verbosity v s').
Proof. unfold emitted, with_verbosity. by destruct s, s'. Qed.

Lemma monotone_intro (floor : Z) (name : string) (m : M t unit)
    text stderr indent link kwargs :
  (∀ s, m s = (if bool_decide (verbosity s < floor) then (Ok tt, s)
               else (style ← attr name; output text (Some style) stderr indent link kwargs) s)) →
  ∀ s, monotone m s.
Proof.
  intros Hm s v Hle. rewrite !Hm.
  destruct (decide (verbosity s < floor)) as [Hlt|Hge].
  - rewrite (bool_decide_eq_true_2 _ Hlt). cbn. intros He. by apply not_emitted in He.
  - rewrite (bool_decide_eq_false_2 _ Hge).
    rewrite bool_decide_eq_false_2 by (destruct s; cbn in *; lia).
    unfold attr. monad. replace (attrs (with_verbosity v s)) with (attrs s) by by destruct s.
    destruct (attrs s !! name) as [style|]; cbn.
    + rewrite output_with_verbosity. cbn. apply emitted_with_verbosity.
    + intros He. by apply not_emitted in He.
Qed.

Ltac monotone_case floor :=
  eapply (monotone_intro floor); intros;
  unfold display_error, display_warning, display_info, display_success, display_waiting;
  monad; cbn;
  match goal with
  | |- context [bool_decide (verbosity ?s < ?f)] =>
      destruct (bool_decide (verbosity s < f)); reflexivity
  end.

(** X12: raising the verbosity silences nothing: a display call that
    prints on a terminal prints on the same terminal at any higher
    verbosity. *)
Theorem display_monotone (s : t) (text : string) (level : Z) (stderr : bool)
    (indent link : option string) (kwargs : gmap string PyVal) :
  monotone (display_error text stderr indent link kwargs) s ∧
  monotone (display_warning text stderr indent link kwargs) s ∧
  monotone (display_info text stderr indent link kwargs) s ∧
  monotone (display_success text stderr indent link kwargs) s ∧
  monotone (display_waiting text stderr indent link kwargs) s ∧
  monotone (display_debug text level stderr indent link kwargs) s.
Proof.
  apply conj; [monotone_case (-2)|]. apply conj; [monotone_case (-1)|].
  do 3 (apply conj; [monotone_case 0|]).
  destruct (decide (1 ≤ level ≤ 3)) as [[H1 H3]|Hout].
  - eapply (monotone_intro level "_style_level_debug"). intros s0.
    unfold display_debug. monad.
    rewrite (bool_decide_eq_true_2 _ H1), (bool_decide_eq_true_2 _ H3). cbn.
    destruct (bool_decide (verbosity s0 < level)); reflexivity.
  - intros v Hle He. exfalso. revert He. unfold display_debug. monad.
    assert (Hd : bool_decide (1 ≤ level) && bool_decide (level ≤ 3) = false).
    { destruct (decide (1 ≤ level)), (decide (level ≤ 3));
        rewrite ?bool_decide_eq_true_2, ?bool_decide_eq_false_2 by done; try done; lia. }
    rewrite Hd. cbn. by apply not_emitted.
Qed.
End SinkExtras.

(** ** The style registry and the platform *)

Section RegistryExtras.
Context `{Collaborators}.
Import Terminal Styles Registry.

Lemma initialize_style_frame (s : t) (errors : list string) (k d : string) :
  same_but_styles s (snd (initialize_style errors k d s)) ∧
  ∀ name, name ≠ level_attribute k → name ≠ custom_attribute k →
    attrs (snd (initialize_style errors k d s)) !! name = attrs s !! name.
Proof.
  unfold same_but_styles, initialize_style, setattr, parse_style_arg, level_attribute,
    custom_attribute.
  destruct s as [v i c ats ds sc]. monad. cbn.
  destruct (ats !! ("_style_level_" +:+ k)) as [[d0|st0]|]; cbn;
    repeat (match goal with
            | |- context [str_bool ?x] => destruct (str_bool x)
            | |- context [Style_bool ?x] => destruct (Style_bool x)
            | |- context [Style_parse ?x] => destruct (Style_parse x)
            end; cbn);
    (split; [done|]); intros name H1 H2; try done; by rewrite lookup_insert_ne.
Qed.

Lemma initialize_styles_loop_frame (styles : list (string * string)) :
  ∀ (errors : list string) (s : t),
    same_but_styles s (snd (initialize_styles_loop errors styles s)) ∧
    ∀ name, ¬ assignable styles.*1 name →
      attrs (snd (initialize_styles_loop errors styles s)) !! name = attrs s !! name.
Proof.
  induction styles as [|[k d] rest IH]; intros errors s; [done|].
  destruct (initialize_style_frame s errors k d) as [Hsame Hattrs].
  cbn [initialize_styles_loop]. monad.
  destruct (initialize_style errors k d s) as [[errors'|e] s1] eqn:Hstep; cbn in *.
  - destruct (IH errors' s1) as [Hsame' Hattrs']. split.
    + unfold same_but_styles in *. intuition congruence.
    + intros name Hname. rewrite Hattrs'.
      * apply Hattrs; intros ->; apply Hname; exists k;
          (split; [apply list_elem_of_here | auto]).
      * intros (k' & Hk' & Hk). apply Hname. exists k'.
        split; [by apply list_elem_of_further | done].
  - split; [done|]. intros name Hname.
    apply Hattrs; intros ->; apply Hname; exists k;
      (split; [apply list_elem_of_here | auto]).
Qed.

(** X13: whether it returns or raises, [initialize_styles] changes nothing
    but style attributes: verbosity, console, platform flag and status are as
    before, and so is every attribute that is neither [_style_level_k] nor
    [_style_k] for a key [k] of the mapping. *)
Theorem initialize_styles_frame (s : t) (styles : list (string * string)) :
  same_but_styles s (snd (initialize_styles styles s)) ∧
  ∀ name, ¬ assignable styles.*1 name →
    attrs (snd (initialize_styles styles s)) !! name = attrs s !! name.
Proof. apply initialize_styles_loop_frame. Qed.

(** X14: once the status has been used, [initialize_styles] no longer
    reaches it: the status keeps the styles and the spinner it was built
    with. *)
Theorem status_styles_are_a_snapshot (s : t) (b : BorrowedStatus.t)
    (styles : list (string * string))
    (Hcache : status_cache s = Some b) :
  status (snd (initialize_styles styles s)) = status s.
Proof.
  destruct (initialize_styles_loop_frame styles [] s) as [(_ & _ & Hc & _ & Hsc) _].
  unfold initialize_styles, status. by rewrite Hsc, Hc, Hcache.
Qed.

(** X15: on a terminal as the constructor leaves it, the key [spinner] of
    a mapping that [initialize_styles] accepts names the spinner of the
    status built afterwards. *)
Theorem spinner_override_reaches_status (verbosity : Z) (enable_color : option bool)
    (interactive : bool) (styles : list (string * string)) (name : string)
    (Hdup : NoDup styles.*1)
    (Hind : no_shadowing styles.*1 = true)
    (Hdef : forallb (default_parses (__init__ verbosity enable_color interactive)) styles.*1
            = true)
    (Hin : ("spinner", name) ∈ styles) :
  ∃ errors s', initialize_styles styles (__init__ verbosity enable_color interactive)
               = (Ok errors, s') ∧
    BorrowedStatus.spinner_style (status s') = name.
Proof.
  set (s := __init__ verbosity enable_color interactive) in *.
  destruct (initialize_styles_loop_run styles s [] Hdup
              (no_shadowing_independent _ Hind) (default_parses_spec _ _ Hdef))
    as (s' & Hrun & Heff & _).
  destruct (initialize_styles_loop_frame styles [] s) as [(_ & _ & _ & _ & Hsc) _].
  unfold initialize_styles. rewrite Hrun in *. cbn in Hsc.
  exists (style_errors s styles), s'. split; [done|].
  specialize (Heff _ _ Hin). unfold in_effect, has_default, current_default in Heff.
  replace (attrs s !! level_attribute "spinner") with (@None StyleArg) in Heff by reflexivity.
  cbn in Heff. change (custom_attribute "spinner") with "_style_spinner" in Heff.
  unfold status. rewrite Hsc. cbn. by rewrite Heff.
Qed.
End RegistryExtras.

Section PlatformExtras.
Context `{Collaborators}.
Import Terminal.

Lemma drop_old_hooks (old new : list HookCall) : drop (length old) (old ++ new) = new.
Proof. by rewrite drop_app_length. Qed.

(** X16: for a status at rest on a terminal, entering a scope assigns
    [True] to the platform's [displaying_status] and leaving it assigns
    [False], with the status at rest again. *)
Theorem status_scope_flags_platform (s : t) (message final_text : string)
    (Htty : BorrowedStatus.tty (status s) = true)
    (Hidle : BorrowedStatus.status (status s) = None)
    (Hempty : BorrowedStatus.messages (status s) = [])
    (Hsp : spinner_known (BorrowedStatus.spinner_style (status s)) = true)
    (Hr : ∀ call, render_error call = None) :
  ∃ s1 s2,
    (on_status (BorrowedStatus.__call__ message final_text);;
     on_status BorrowedStatus.__enter__) s = (Ok tt, s1) ∧
    displaying_status s1 = Some true ∧
    on_status BorrowedStatus.__exit__ s1 = (Ok tt, s2) ∧
    displaying_status s2 = Some false ∧
    BorrowedStatus.status (status s2) = None ∧
    BorrowedStatus.messages (status s2) = [].
Proof.
  unfold on_status. monad.
  destruct (status s) as [[fl it es] ty v sp w su hk st ms] eqn:Hb; cbn in *; subst.
  destruct (bool_decide (0 < v)) eqn:Hd, final_text as [|c final_text].
  all: methods; monad; cbn; rewrite Hsp; cbn.
  all: replace (drop (length hk) hk) with (@nil HookCall) by (by rewrite drop_all).
  all: cbn; rewrite (drop_old_hooks hk [Initializer]); cbn.
  all: eexists _, _; split; [reflexivity|]; split; [reflexivity|]; cbn.
  all: rewrite Hd; cbn; rewrite ?Hr; cbn.
  all: rewrite (drop_old_hooks (hk ++ [Initializer]) [Finalizer]); cbn.
  all: (split; [reflexivity|]); cbn; done.
Qed.
End PlatformExtras.

(** ** Tables *)

Section TableExtras.
Import Tables.


Lemma max_of_bounds (l : list Z) (m : Z) :
  max_of l = Some m → m ∈ l ∧ ∀ x, x ∈ l → x ≤ m.
Proof.
  revert m. induction l as [|x rest IH]; intros m; [done|]. cbn.
  destruct (max_of rest) as [m'|] eqn:Hrest; intros [= <-].
  - destruct (IH m' eq_refl) as [Hin Hle]. split.
    + destruct (Z.max_spec x m') as [[_ ->]|[_ ->]];
        [by apply list_elem_of_further | apply list_elem_of_here].
    + intros y [->|Hy]%elem_of_cons; [lia|]. specialize (Hle y Hy). lia.
  - destruct rest; [|done]. split; [apply list_elem_of_here|].
    intros y [->|Hy]%elem_of_cons; [lia|]. by apply elem_of_nil in Hy.
Qed.


Lemma elem_of_keys (indices : gmap Z string) (i : Z) :
  i ∈ keys indices ↔ is_Some (indices !! i).
Proof.
  unfold keys. rewrite list_elem_of_fmap. split.
  - intros ([k v] & -> & Hin). apply elem_of_map_to_list in Hin. eauto.
  - intros [v Hv]. exists (i, v). split; [done|]. by apply elem_of_map_to_list.
Qed.

Lemma kept_nonempty (columns : list (string * gmap Z string)) column :
  column ∈ kept columns ↔ column ∈ columns ∧ column.2 ≠ ∅.
Proof. unfold kept. rewrite list_elem_of_filter. tauto. Qed.


Lemma max_index_bounds (columns : list (string * gmap Z string)) (m : Z) :
  max_index columns = Some m →
  ∀ column i, column ∈ columns → is_Some (column.2 !! i) → i ≤ m.
Proof.
  unfold max_index. intros Hm column i Hin Hi.
  destruct (mapM _ columns) as [maxes|] eqn:Hmaxes; [|done]. cbn in Hm.
  apply mapM_Some in Hmaxes.
  apply list_elem_of_lookup in Hin as [j Hj].
  destruct (Forall2_lookup_l _ _ _ _ _ Hmaxes Hj) as (mc & Hmc & Hmax).
  destruct (max_of_bounds _ _ Hmax) as [_ Hle].
  destruct (max_of_bounds _ _ Hm) as [_ Hle'].
  specialize (Hle i (proj2 (elem_of_keys _ _) Hi)).
  specialize (Hle' mc (list_elem_of_lookup_2 _ _ _ Hmc)). lia.
Qed.

Lemma elem_of_range (n i : Z) : i ∈ range n ↔ 0 ≤ i < n.
Proof.
  unfold range. rewrite list_elem_of_fmap. split.
  - intros (k & -> & Hk). apply elem_of_seq in Hk. lia.
  - intros Hi. exists (Z.to_nat i). split; [lia|]. apply elem_of_seq. lia.
Qed.

Lemma row_at_lookup (columns : list (string * gmap Z string)) (i : Z) (j : nat) column :
  columns !! j = Some column → row_at columns i !! j = Some (default "" (column.2 !! i)).
Proof. intros Hj. unfold row_at. by rewrite list_lookup_fmap, Hj. Qed.


(** A table that is handed out was built from a number of rows [n]. *)
Lemma display_table_built title columns show_lines column_options force_ascii num_rows table :
  display_table title columns show_lines column_options force_ascii num_rows = Ok (Some table) →
  ∃ n, (num_rows ≠ 0 ∧ n = num_rows ∨
        num_rows = 0 ∧ ∃ m, max_index (kept columns) = Some m ∧ n = m + 1) ∧
    table_columns table
      = (λ column, (column.1, default ∅ (default ∅ column_options !! column.1)))
          <$> kept columns ∧
    table_rows table
      = filter (λ row, any_cell row = true) (row_at (kept columns) <$> range n).
Proof.
  unfold display_table. destruct (kept columns) as [|column rest] eqn:Hk; [done|].
  destruct (decide (num_rows ≠ 0)) as [Hn|Hn].
  - rewrite (bool_decide_eq_true_2 _ Hn). intros [= <-]. exists num_rows. cbn. auto.
  - rewrite (bool_decide_eq_false_2 _ Hn).
    destruct (max_index (column :: rest)) as [m|] eqn:Hm; cbn; [|done].
    intros [= <-]. exists (m + 1). cbn. split; [|done]. right. split; [lia|]. eauto.
Qed.

(** X18: the table has the columns that are not empty, in their order, at
    least one of them; every row has one cell per column and at least one
    cell that is not empty. *)
Theorem display_table_shape (title : string) (columns : list (string * gmap Z string))
    (show_lines : bool) (column_options : option (gmap string (gmap string PyVal)))
    (force_ascii : bool) (num_rows : Z) (table : Table)
    (Hrun : display_table title columns show_lines column_options force_ascii num_rows
            = Ok (Some table)) :
  (table_columns table).*1 = (filter (λ column, column.2 ≠ ∅) columns).*1 ∧
  table_columns table ≠ [] ∧
  ∀ row, row ∈ table_rows table →
    length row = length (table_columns table) ∧ ∃ cell, cell ∈ row ∧ cell ≠ "".
Proof.
  destruct (display_table_built _ _ _ _ _ _ _ Hrun) as (n & _ & Hcols & Hrows).
  split; [|split].
  - rewrite Hcols. unfold kept. rewrite <- list_fmap_compose. done.
  - rewrite Hcols. unfold display_table in Hrun. by destruct (kept columns).
  - intros row Hrow. rewrite Hrows in Hrow.
    apply list_elem_of_filter in Hrow as [Hany Hrow].
    apply list_elem_of_fmap in Hrow as (i & -> & _). split.
    + rewrite Hcols. unfold row_at. by rewrite !length_fmap.
    + unfold any_cell in Hany. apply existsb_exists in Hany as (cell & Hin & Hcell).
      exists cell. split; [by apply list_elem_of_In|]. by intros ->.
Qed.

(** X19: without [num_rows], every cell that is not empty and sits at an
    index of 0 or more is in a row of the table, in the position of its
    column. *)
Theorem display_table_shows_every_cell (title : string)
    (columns : list (string * gmap Z string)) (show_lines : bool)
    (column_options : option (gmap string (gmap string PyVal))) (force_ascii : bool)
    (table : Table) (column : string * gmap Z string) (j : nat) (i : Z) (cell : string)
    (Hrun : display_table title columns show_lines column_options force_ascii 0
            = Ok (Some table))
    (Hcolumn : filter (λ column, column.2 ≠ ∅) columns !! j = Some column)
    (Hcell : column.2 !! i = Some cell) (Hshown : cell ≠ "") (Hi : 0 ≤ i) :
  ∃ row, row ∈ table_rows table ∧ row !! j = Some cell.
Proof.
  destruct (display_table_built _ _ _ _ _ _ _ Hrun) as (n & Hn & _ & Hrows).
  destruct Hn as [[Hne _]|(_ & m & Hm & ->)]; [done|].
  fold (kept columns) in Hcolumn.
  assert (Hle : i ≤ m).
  { apply (max_index_bounds _ _ Hm column); [by eapply list_elem_of_lookup_2 | eauto]. }
  exists (row_at (kept columns) i).
  assert (Hj : row_at (kept columns) i !! j = Some cell).
  { rewrite (row_at_lookup _ _ _ _ Hcolumn). by rewrite Hcell. }
  split; [|done].
  rewrite Hrows. apply list_elem_of_filter. split.
  - unfold any_cell. apply existsb_exists. exists cell. split.
    + apply list_elem_of_In. by eapply list_elem_of_lookup_2.
    + by destruct cell.
  - apply list_elem_of_fmap. exists i. split; [done|]. apply elem_of_range. lia.
Qed.

(** X20: with [num_rows] given, every row comes from an index below it:
    cells at higher indices are left out, and a negative [num_rows] gives a
    table without rows. *)
Theorem display_table_num_rows_truncates (title : string)
    (columns : list (string * gmap Z string)) (show_lines : bool)
    (column_options : option (gmap string (gmap string PyVal))) (force_ascii : bool)
    (num_rows : Z) (table : Table)
    (Hrun : display_table title columns show_lines column_options force_ascii num_rows
            = Ok (Some table))
    (Hnum : num_rows ≠ 0) :
  (∀ row, row ∈ table_rows table →
     ∃ i, 0 ≤ i < num_rows ∧ row = row_at (filter (λ column, column.2 ≠ ∅) columns) i) ∧
  (num_rows < 0 → table_rows table = []).
Proof.
  destruct (display_table_built _ _ _ _ _ _ _ Hrun) as (n & Hn & _ & Hrows).
  destruct Hn as [[_ ->]|[Hz _]]; [|done].
  split.
  - intros row Hrow. rewrite Hrows in Hrow.
    apply list_elem_of_filter in Hrow as [_ Hrow].
    apply list_elem_of_fmap in Hrow as (i & -> & Hi). apply elem_of_range in Hi. eauto.
  - intros Hneg. rewrite Hrows. unfold range.
    replace (Z.to_nat num_rows) with 0%nat by lia. done.
Qed.
End TableExtras.

(** * The model at work *)

Example finished_resolving_dependencies :
  StatusStack.printed (snd (BorrowedStatus.__exit__ Scenario.resolving))
  = [mkPrintCall (RText (mkText "Finished resolving dependencies" (StyleStr "bold cyan")))
       None line_kwargs true].
Proof. vm_compute. reflexivity. Qed.

Example building_on_a_pipe :
  Console.events (BorrowedStatus.console (snd
    ((BorrowedStatus.__call__ "Building" "Built";; BorrowedStatus.__enter__;;
      BorrowedStatus.__exit__) Demo.piped)))
  = [EPrint (mkPrintCall (RText (mkText "Building" (StyleStr "bold magenta")))
       None line_kwargs true)].
Proof. vm_compute. reflexivity. Qed.

Example failed_render_leaves_primary_stream :
  fst (Sink.run_op (Sink.DisplayError "boom" true None None ∅) (Terminal.__init__ 0 None true))
    = Raise (RendererError "cannot render") ∧
  Console.stderr (Terminal.console Scenario.after_failure) = false.
Proof. vm_compute. split; reflexivity. Qed.

Example error_style_falls_back :
  fst (Terminal.initialize_styles [("error", "not-a-real-style")] (Terminal.__init__ 0 None true))
  = Ok ["Invalid style definition for `error`, defaulting to `bold red`: "
          +:+ "unable to parse 'not-a-real-style' as color"].
Proof. vm_compute. reflexivity. Qed.



Lemma exit_empty_raises_witness :
  BorrowedStatus.messages Demo.piped = [] ∧
  BorrowedStatus.__exit__ Demo.piped = (Raise IndexError, Demo.piped).
Proof.
  split; [reflexivity|]. apply (exit_empty_raises Demo.piped). reflexivity.
Defined.

Lemma piped_one_line_witness :
  BorrowedStatus.tty Demo.piped = false ∧
  render_error (StatusStack.waiting_line Demo.piped "Building") = None ∧
  (∃ s1 s2,
     (BorrowedStatus.__call__ "Building" "Built";; BorrowedStatus.__enter__) Demo.piped
       = (Ok tt, s1) ∧
     Console.events (BorrowedStatus.console s1)
       = Console.events (BorrowedStatus.console Demo.piped)
         ++ [EPrint (StatusStack.waiting_line Demo.piped "Building")] ∧
     BorrowedStatus.__exit__ s1 = (Ok tt, s2) ∧
     Console.events (BorrowedStatus.console s2) = Console.events (BorrowedStatus.console s1) ∧
     BorrowedStatus.messages s2 = BorrowedStatus.messages Demo.piped).
Proof.
  split; [reflexivity|]. split; [reflexivity|].
  apply (piped_one_line Demo.piped "Building" "Built");
    [apply StatusStack.reach_init | reflexivity | reflexivity].
Defined.


Lemma nested_pop_restores_witness :
  BorrowedStatus.tty Demo.interactive = true ∧
  ∃ s', StatusStack.nested "Alpha" "" "Beta" "" Demo.interactive = (Ok tt, s') ∧
    BorrowedStatus.status s'
      = Some (mkStatus (mkText "Alpha" (StyleStr "bold magenta")) "simpleDotsScrolling" true) ∧
    last (Console.events (BorrowedStatus.console s'))
      = Some (ESpinnerStart (mkText "Alpha" (StyleStr "bold magenta")) "simpleDotsScrolling") ∧
    BorrowedStatus.messages s' = [(mkText "Alpha" (StyleStr "bold magenta"), "")].
Proof.
  split; [reflexivity|].
  apply (nested_pop_restores Demo.interactive "Alpha" "" "Beta" "");
    [reflexivity | reflexivity | intros _; reflexivity].
Defined.

Lemma enter_empty_noop_witness :
  BorrowedStatus.messages Demo.interactive = [] ∧
  BorrowedStatus.__enter__ Demo.interactive = (Ok tt, Demo.interactive).
Proof.
  split; [reflexivity|]. apply (enter_empty_noop Demo.interactive). reflexivity.
Defined.

Lemma display_debug_level_check_witness :
  Terminal.display_debug "detail" 0 true None None ∅ (Terminal.__init__ 3 None true)
    = (Raise (ValueError Terminal.debug_level_message), Terminal.__init__ 3 None true) ∧
  Terminal.display_debug "detail" 4 true None None ∅ (Terminal.__init__ 3 None true)
    = (Raise (ValueError Terminal.debug_level_message), Terminal.__init__ 3 None true).
Proof.
  split.
  - apply (display_debug_level_check (Terminal.__init__ 3 None true) "detail" 0). lia.
  - apply (display_debug_level_check (Terminal.__init__ 3 None true) "detail" 4). lia.
Defined.


Lemma stream_selection_restored_witness :
  Sink.reachable Scenario.after_failure ∧
  ∀ r s',
    Terminal.output "boom" None true None None ∅ Scenario.after_failure = (r, s') →
    Console.stderr (Terminal.console s')
      = Console.stderr (Terminal.console Scenario.after_failure).
Proof.
  assert (Hreach : Sink.reachable Scenario.after_failure)
    by (apply Sink.reach_op, Sink.reach_init).
  split; [exact Hreach|].
  apply (stream_selection_restored Scenario.after_failure Hreach).
Defined.



(** ** The further properties at work *)

Example three_scopes_finish_innermost_first :
  (λ call, p_text call) <$>
    StatusStack.printed (snd (Scopes.scopes Inputs.three_scopes Demo.interactive))
  = [RText (mkText "Finished downloading" (StyleStr "bold cyan"));
     RText (mkText "Resolved" (StyleStr "bold cyan"));
     RText (mkText "Finished building" (StyleStr "bold cyan"))].
Proof. vm_compute. reflexivity. Qed.

Example packages_table :
  Tables.display_table "Packages" Inputs.columns false None false 0
  = Ok (Some (Tables.mkTable "Packages" false false [("Name", ∅); ("Version", ∅)]
                [["hatch"; "1.7.0"]; ["rich"; ""]])).
Proof. vm_compute. reflexivity. Qed.

Lemma piped_status_never_live_witness :
  let s := snd (StatusStack.run_op StatusStack.Enter
                  (snd (StatusStack.run_op (StatusStack.Call "Building" "") Demo.piped))) in
  BorrowedStatus.tty s = false ∧
  BorrowedStatus.status s = None ∧ BorrowedStatus.hook_calls s = [].
Proof.
  intros s. split; [reflexivity|].
  apply (piped_status_never_live s); [|reflexivity].
  apply StatusStack.reach_op, StatusStack.reach_op, StatusStack.reach_init.
Defined.

Lemma quiet_status_prints_nothing_witness :
  let s := snd ((BorrowedStatus.__call__ "Building" "Built";; BorrowedStatus.__enter__)
                  Inputs.quiet) in
  BorrowedStatus.tty s = true ∧ BorrowedStatus.verbosity s ≤ 0 ∧
  StatusStack.printed (snd (StatusStack.run_op StatusStack.Exit s)) = StatusStack.printed s.
Proof.
  intros s.
  assert (Htty : BorrowedStatus.tty s = true) by reflexivity.
  assert (Hquiet : BorrowedStatus.verbosity s ≤ 0) by (vm_compute; discriminate).
  split; [exact Htty|]. split; [exact Hquiet|].
  apply (quiet_status_prints_nothing StatusStack.Exit s Htty Hquiet).
Defined.

Lemma output_prints_line_witness :
  let style := Some (StyleObj ("red", None)) in
  let line := Lines.output_line "see" style true (Some "  ") (Some "README.md")
                {["end" := PyStr ""]} in
  render_error line = None ∧
  Terminal.output "see" style true (Some "  ") (Some "README.md") {["end" := PyStr ""]}
    Inputs.styled
  = (Ok tt, Lines.printed_line line Inputs.styled).
Proof.
  intros style line. split; [reflexivity|].
  apply (output_prints_line Inputs.styled "see" style true (Some "  ") (Some "README.md")).
  - apply Sink.reach_op, Sink.reach_init.
  - intros _. by exists ("red", None).
  - reflexivity.
Defined.



Lemma mini_header_lines_witness :
  let info := StyleObj ("bold", None) in
  let success := StyleObj ("bold cyan", None) in
  0 ≤ Terminal.verbosity Inputs.styled ∧
  Terminal.attrs Inputs.styled !! "_style_level_info" = Some info ∧
  Terminal.attrs Inputs.styled !! "_style_level_success" = Some success ∧
  Terminal.display_mini_header "hatch" false (Some "  ") None Inputs.styled
  = (Ok tt,
     Lines.printed_line (Lines.output_line "]" (Some info) false None None ∅)
       (Lines.printed_line
          (Lines.output_line "hatch" (Some success) false None None {["end" := PyStr ""]})
          (Lines.printed_line
             (Lines.output_line "[" (Some info) false (Some "  ") None {["end" := PyStr ""]})
             Inputs.styled))).
Proof.
  intros info success.
  assert (Hv : 0 ≤ Terminal.verbosity Inputs.styled) by (vm_compute; discriminate).
  assert (Hinfo : Terminal.attrs Inputs.styled !! "_style_level_info" = Some info)
    by (vm_compute; reflexivity).
  assert (Hsuccess : Terminal.attrs Inputs.styled !! "_style_level_success" = Some success)
    by (vm_compute; reflexivity).
  split; [exact Hv|]. split; [exact Hinfo|]. split; [exact Hsuccess|].
  apply (mini_header_lines Inputs.styled "hatch" false (Some "  ") None info success);
    [apply Sink.reach_op, Sink.reach_init | exact Hv | exact Hinfo | exact Hsuccess
    | intros [=] | reflexivity | reflexivity | reflexivity].
Defined.

Lemma mini_header_not_atomic_witness :
  let info := StyleObj ("bold", None) in
  let success := StyleObj ("bold cyan", None) in
  render_error (Lines.output_line "boom" (Some success) false None None {["end" := PyStr ""]})
    = Some "cannot render" ∧
  Terminal.display_mini_header "boom" false None None Inputs.styled
  = (Raise (RendererError "cannot render"),
     Lines.printed_line
       (Lines.output_line "[" (Some info) false None None {["end" := PyStr ""]})
       Inputs.styled).
Proof.
  intros info success. split; [reflexivity|].
  apply (mini_header_not_atomic Inputs.styled "boom" false None None info success);
    [apply Sink.reach_op, Sink.reach_init | vm_compute; discriminate
    | vm_compute; reflexivity | vm_compute; reflexivity
    | intros [=] | reflexivity | reflexivity].
Defined.

Lemma display_monotone_witness :
  Lines.monotone (Terminal.display_warning "careful" true None None ∅)
    (Terminal.__init__ (-1) None true) ∧
  Lines.monotone (Terminal.display_debug "detail" 2 true None None ∅)
    (Terminal.__init__ 2 None true).
Proof.
  split.
  - apply (display_monotone (Terminal.__init__ (-1) None true) "careful" 1 true None None ∅).
  - apply (display_monotone (Terminal.__init__ 2 None true) "detail" 2 true None None ∅).
Defined.

Lemma initialize_styles_frame_witness :
  let s := Terminal.__init__ 0 None true in
  let s' := snd (Terminal.initialize_styles Scenario.overrides s) in
  Registry.same_but_styles s s' ∧
  Terminal.attrs s' !! "_style_level_debug" = Terminal.attrs s !! "_style_level_debug".
Proof.
  intros s s'.
  destruct (initialize_styles_frame s Scenario.overrides) as [Hsame Hattrs].
  split; [exact Hsame|]. apply Hattrs.
  intros (k & Hk & Hname). cbn in Hk.
  repeat (apply elem_of_cons in Hk as [->|Hk]); try (by apply elem_of_nil in Hk);
    destruct Hname as [Hname|Hname]; vm_compute in Hname; discriminate.
Defined.

Lemma status_styles_are_a_snapshot_witness :
  is_Some (Terminal.status_cache Inputs.used) ∧
  Terminal.status (snd (Terminal.initialize_styles Scenario.overrides Inputs.used))
  = Terminal.status Inputs.used.
Proof.
  split; [vm_compute; eauto|].
  eapply (status_styles_are_a_snapshot Inputs.used). vm_compute. reflexivity.
Defined.

Lemma spinner_override_reaches_status_witness :
  NoDup Scenario.overrides.*1 ∧
  Styles.no_shadowing Scenario.overrides.*1 = true ∧
  forallb (Styles.default_parses (Terminal.__init__ 0 None true)) Scenario.overrides.*1
    = true ∧
  ("spinner", "dots") ∈ Scenario.overrides ∧
  ∃ errors s', Terminal.initialize_styles Scenario.overrides (Terminal.__init__ 0 None true)
               = (Ok errors, s') ∧
    BorrowedStatus.spinner_style (Terminal.status s') = "dots".
Proof.
  assert (Hdup : NoDup Scenario.overrides.*1)
    by (apply (bool_decide_unpack _); vm_compute; exact I).
  assert (Hind : Styles.no_shadowing Scenario.overrides.*1 = true) by (vm_compute; reflexivity).
  assert (Hdef : forallb (Styles.default_parses (Terminal.__init__ 0 None true))
                   Scenario.overrides.*1 = true) by (vm_compute; reflexivity).
  assert (Hin : ("spinner", "dots") ∈ Scenario.overrides)
    by (apply (bool_decide_unpack _); vm_compute; exact I).
  split; [exact Hdup|]. split; [exact Hind|]. split; [exact Hdef|]. split; [exact Hin|].
  apply (spinner_override_reaches_status 0 None true Scenario.overrides "dots"
           Hdup Hind Hdef Hin).
Defined.


Lemma display_table_shape_witness :
  let table := Tables.mkTable "Packages" false false [("Name", ∅); ("Version", ∅)]
                 [["hatch"; "1.7.0"]; ["rich"; ""]] in
  Tables.display_table "Packages" Inputs.columns false None false 0 = Ok (Some table) ∧
  (Tables.table_columns table).*1
    = (filter (λ column : string * gmap Z string, column.2 ≠ ∅) Inputs.columns).*1 ∧
  Tables.table_columns table ≠ [] ∧
  ∀ row, row ∈ Tables.table_rows table →
    length row = length (Tables.table_columns table) ∧ ∃ cell, cell ∈ row ∧ cell ≠ "".
Proof.
  intros table.
  assert (Hrun : Tables.display_table "Packages" Inputs.columns false None false 0
                 = Ok (Some table)) by (vm_compute; reflexivity).
  split; [exact Hrun|].
  exact (display_table_shape "Packages" Inputs.columns false None false 0 table Hrun).
Defined.

Lemma display_table_shows_every_cell_witness :
  let table := Tables.mkTable "Packages" false false [("Name", ∅); ("Version", ∅)]
                 [["hatch"; "1.7.0"]; ["rich"; ""]] in
  Tables.display_table "Packages" Inputs.columns false None false 0 = Ok (Some table) ∧
  ∃ row, row ∈ Tables.table_rows table ∧ row !! 0%nat = Some "rich".
Proof.
  intros table.
  assert (Hrun : Tables.display_table "Packages" Inputs.columns false None false 0
                 = Ok (Some table)) by (vm_compute; reflexivity).
  split; [exact Hrun|].
  apply (display_table_shows_every_cell "Packages" Inputs.columns false None false table
           ("Name", {[0 := "hatch"; 1 := "rich"]}) 0%nat 1 "rich" Hrun);
    [vm_compute; reflexivity | vm_compute; reflexivity | discriminate | lia].
Defined.

Lemma display_table_num_rows_truncates_witness :
  let table := Tables.mkTable "Packages" false false [("Name", ∅); ("Version", ∅)]
                 [["hatch"; "1.7.0"]] in
  Tables.display_table "Packages" Inputs.columns false None false 1 = Ok (Some table) ∧
  (∀ row, row ∈ Tables.table_rows table →
     ∃ i, 0 ≤ i < 1 ∧
       row = Tables.row_at
               (filter (λ column : string * gmap Z string, column.2 ≠ ∅) Inputs.columns) i) ∧
  (1 < 0 → Tables.table_rows table = []).
Proof.
  intros table.
  assert (Hrun : Tables.display_table "Packages" Inputs.columns false None false 1
                 = Ok (Some table)) by (vm_compute; reflexivity).
  split; [exact Hrun|].
  apply (display_table_num_rows_truncates "Packages" Inputs.columns false None false 1 table
           Hrun).
  lia.
Defined.

(** With a renderer that prints every line. *)
Module OnReliable.
#[local] Existing Instance Reliable.collaborators.

Lemma scopes_finish_in_reverse_witness :
  BorrowedStatus.tty Demo.interactive = true ∧
  ∃ s', Scopes.scopes Inputs.three_scopes Demo.interactive = (Ok tt, s') ∧
    BorrowedStatus.messages s' = BorrowedStatus.messages Demo.interactive ∧
    StatusStack.printed s'
      = StatusStack.printed Demo.interactive
        ++ Scopes.finished_lines Demo.interactive Inputs.three_scopes ∧
    BorrowedStatus.status s' = Scopes.resting Demo.interactive ∧
    BorrowedStatus.hook_calls s'
      = BorrowedStatus.hook_calls Demo.interactive ++ Scopes.scope_hooks Demo.interactive ∧
    Scopes.same_configuration Demo.interactive s'.
Proof.
  split; [reflexivity|].
  apply (scopes_finish_in_reverse Demo.interactive Inputs.three_scopes);
    [reflexivity | reflexivity | intros call; reflexivity].
Defined.

Lemma status_scope_flags_platform_witness :
  let s := Terminal.__init__ 1 (Some true) true in
  BorrowedStatus.tty (Terminal.status s) = true ∧
  ∃ s1 s2,
    (Terminal.on_status (BorrowedStatus.__call__ "Building" "");;
     Terminal.on_status BorrowedStatus.__enter__) s = (Ok tt, s1) ∧
    Terminal.displaying_status s1 = Some true ∧
    Terminal.on_status BorrowedStatus.__exit__ s1 = (Ok tt, s2) ∧
    Terminal.displaying_status s2 = Some false ∧
    BorrowedStatus.status (Terminal.status s2) = None ∧
    BorrowedStatus.messages (Terminal.status s2) = [].
Proof.
  intros s. split; [reflexivity|].
  apply (status_scope_flags_platform s "Building" "");
    [reflexivity | reflexivity | reflexivity | reflexivity | intros call; reflexivity].
Defined.
End OnReliable.

(** With a renderer that fails on the lines of the status. *)
Module OnFailing.
#[local] Existing Instance Failing.collaborators.

Lemma exit_render_failure_keeps_spinner_witness :
  StatusStack.active Scenario.resolving = true ∧
  render_error (StatusStack.completion_line Scenario.resolving "Resolving dependencies" "")
    = Some "broken pipe" ∧
  ∃ s', BorrowedStatus.__exit__ Scenario.resolving = (Raise (RendererError "broken pipe"), s') ∧
    BorrowedStatus.messages s' = removelast (BorrowedStatus.messages Scenario.resolving) ∧
    BorrowedStatus.status s' = BorrowedStatus.status Scenario.resolving ∧
    BorrowedStatus.hook_calls s' = BorrowedStatus.hook_calls Scenario.resolving ∧
    Console.events (BorrowedStatus.console s')
      = Console.events (BorrowedStatus.console Scenario.resolving) ∧
    Console.stderr (BorrowedStatus.console s') = false.
Proof.
  split; [reflexivity|]. split; [reflexivity|].
  apply (exit_render_failure_keeps_spinner Scenario.resolving "Resolving dependencies"
           (StyleStr "bold magenta") "" "broken pipe");
    [reflexivity | vm_compute; reflexivity | reflexivity | reflexivity].
Defined.
End OnFailing.
